(** * HEIC to JPG converter: a shallow embedding of [main.py]

    The model follows the layout of the source file:
    - Python values, [pathlib] paths and the file-system tree the
      converter walks;
    - a state-and-exception monad for the code that touches the file
      system or calls the image libraries;
    - [HEICToJPGConverter] with [find_heic_files], [preserve_metadata],
      [verify_metadata_preservation], [convert_single_file] and
      [convert_folder], and the command line entry point [main].
    It is followed by the vocabulary of the properties, by sample
    collaborators and trees, and by the properties themselves.

    Calls to [logging] are left out: they neither change control flow nor
    any value the methods return.  Two things in them are kept: the [len]
    calls inside the debug messages of [preserve_metadata], which can
    raise, and the summary at the end of [convert_folder], whose format
    string divides by the number of files; the summary is an event and a
    possibly-raising step.  The image libraries (Pillow, pillow_heif,
    piexif) are collaborators whose results are taken as parameters.  The
    input folder reaches [convert_folder] as a string: it is carried with
    the path it denotes and with the answer of the operating system when
    that refuses to look the path up, and the messages quote the string. *)

From stdpp Require Import gmap strings list.
From Stdlib Require Import ZArith Ascii String Lia.

Set Warnings "-register-all".

Local Open Scope string_scope.
Local Open Scope list_scope.
Local Open Scope Z_scope.

(** ** Python values *)

Module Py.

(** The payloads found in [Image.info], in EXIF dictionaries and in the
    keyword arguments of [Image.save].  A float is carried by its IEEE 754
    bit pattern, no arithmetic is done on it.  [VOther] is an object of
    any other class (a tuple, a list, a dict, a rational, ...), given by
    what the code can observe of it: [truth] is [bool(v)] and [len] is
    [len(v)] when the object has a length; [tag] tells such objects apart
    for the libraries they are handed to.  A tuple of two items is
    [VOther tag true (Some 2)], an empty list [VOther tag false (Some 0)],
    an object with neither [__bool__] nor [__len__] is
    [VOther tag true None]. *)
Inductive pyval :=
| VNone
| VBool (b : bool)
| VInt (n : Z)
| VFloat (bits : Z)
| VStr (s : string)
| VBytes (b : list Byte.byte)
| VOther (tag : nat) (truth : bool) (len : option nat).

(** Keys of an EXIF dictionary: integers in practice, other objects are
    possible. *)
Inductive pykey :=
| KInt (n : Z)
| KStr (s : string).

(** Python truthiness, [bool(v)].  A float is false when it is [0.0] or
    [-0.0]: every bit but the sign bit, bit 63, is zero. *)
Definition truthy (v : pyval) : bool :=
  match v with
  | VNone => false
  | VBool b => b
  | VInt n => negb (n =? 0)
  | VFloat bits => negb (Z.land bits (Z.ones 63) =? 0)
  | VStr s => negb (String.eqb s "")
  | VBytes b => match b with [] => false | _ => true end
  | VOther _ truth _ => truth
  end.

(** Truthiness of a variable that may hold [None]. *)
Definition truthy_opt (o : option pyval) : bool :=
  match o with
  | Some v => truthy v
  | None => false
  end.

(** [isinstance(value, (str, bytes, int, float))]; [bool] is a subclass of
    [int]. *)
Definition is_scalar (v : pyval) : bool :=
  match v with
  | VStr _ | VBytes _ | VInt _ | VBool _ | VFloat _ => true
  | VNone | VOther _ _ _ => false
  end.

(** [isinstance(tag_id, int) and tag_id in range(0, 65536)]. *)
Definition valid_exif_tag (k : pykey) : bool :=
  match k with
  | KInt n => (0 <=? n) && (n <? 65536)
  | KStr _ => false
  end.

(** ASCII [str.lower()]. *)
Definition lower_ascii (c : ascii) : ascii :=
  let n := nat_of_ascii c in
  if ((65 <=? n) && (n <=? 90))%nat then ascii_of_nat (n + 32) else c.

Fixpoint lower (s : string) : string :=
  match s with
  | EmptyString => EmptyString
  | String c r => String (lower_ascii c) (lower r)
  end.

End Py.
Export Py.

(** ** Exceptions and the state-and-exception monad *)

(** The subclasses of [Exception] the code can meet.  [OSError] is the
    error of a refused [os.stat], with the text the operating system gives
    it; the four after it are the subclasses of [OSError] raised by the
    file operations. *)
Inductive exc :=
| ValueError (msg : string)
| OSError (msg : string)
| TypeError
| ZeroDivisionError
| FileNotFoundError
| FileExistsError
| NotADirectoryError
| IsADirectoryError
| LibraryError.

(** [str(e)]: the message of a [ValueError] or of a refused [os.stat];
    the other exceptions are raised by the libraries, with a text of their
    own. *)
Definition exc_str (e : exc) : string :=
  match e with
  | ValueError msg => msg
  | OSError msg => msg
  | _ => ""
  end.

Inductive res (A : Type) :=
| Ok (a : A)
| Raise (e : exc).
Arguments Ok {A} a.
Arguments Raise {A} e.

(** A computation over a state [S]: the state reached is kept when an
    exception is raised, as side effects done before a Python [raise]
    stay done. *)
Definition M (S A : Type) : Type := S → res A * S.

Definition ret {S A} (a : A) : M S A := λ s, (Ok a, s).
Definition raise {S A} (e : exc) : M S A := λ s, (Raise e, s).
Definition bind {S A B} (m : M S A) (k : A → M S B) : M S B :=
  λ s, match m s with
       | (Ok a, s') => k a s'
       | (Raise e, s') => (Raise e, s')
       end.
(** [try: m  except Exception as e: h e]. *)
Definition try_except {S A} (m : M S A) (h : exc → M S A) : M S A :=
  λ s, match m s with
       | (Ok a, s') => (Ok a, s')
       | (Raise e, s') => h e s'
       end.
Definition get {S} : M S S := λ s, (Ok s, s).
Definition modify {S} (f : S → S) : M S unit := λ s, (Ok tt, f s).
Definition lift_res {S A} (r : res A) : M S A := λ s, (r, s).

Declare Scope py_scope.
Delimit Scope py_scope with py.
Notation "'let!' x ':=' m 'in' k" := (bind m (λ x, k))
  (at level 10, x name, m at level 100, k at level 200) : py_scope.
Notation "m ;;; k" := (bind m (λ _, k))
  (at level 100, right associativity) : py_scope.
Local Open Scope py_scope.

(** ** [pathlib] paths *)

Module PathLib.

(** A path is the list of its components below the root. *)
Definition path := list string.

(** [str.rfind('.')]. *)
Fixpoint rfind_dot (s : string) : option nat :=
  match s with
  | EmptyString => None
  | String c r =>
      match rfind_dot r with
      | Some i => Some (S i)
      | None => if Ascii.eqb c "." then Some 0%nat else None
      end
  end.

(** [0 < i < len(name) - 1] for [i = name.rfind('.')]: the place where the
    suffix starts, if the name has one. *)
Definition suffix_start (nm : string) : option nat :=
  match rfind_dot nm with
  | Some i =>
      if ((0 <? i) && (i <? String.length nm - 1))%nat then Some i else None
  | None => None
  end.

(** [PurePath.name]. *)
Definition name (p : path) : string := List.last p "".

(** [PurePath.suffix]: [name[i:]] or the empty string. *)
Definition suffix (p : path) : string :=
  let nm := name p in
  match suffix_start nm with
  | Some i => substring i (String.length nm - i) nm
  | None => ""
  end.

(** [PurePath.stem]: [name[:i]] or the whole name. *)
Definition stem (p : path) : string :=
  let nm := name p in
  match suffix_start nm with
  | Some i => substring 0 i nm
  | None => nm
  end.

(** [PurePath.parent]. *)
Definition parent (p : path) : path := removelast p.

(** [p / child]. *)
Definition joinpath (p : path) (child : string) : path := p ++ [child].

(** [p.relative_to(base)]: [ValueError] unless [base] is a prefix. *)
Fixpoint relative_to (p base : path) : res path :=
  match base with
  | [] => Ok p
  | b :: base' =>
      match p with
      | c :: p' =>
          if String.eqb b c then relative_to p' base'
          else Raise (ValueError "is not in the subpath of")
      | [] => Raise (ValueError "is not in the subpath of")
      end
  end.

End PathLib.
Export PathLib.

(** ** The file system *)

Module FS.

(** A directory tree.  [Special] stands for an entry that exists but is
    neither a regular file nor a directory (a fifo, a device). *)
Inductive node :=
| File (data : list Byte.byte)
| Dir (entries : list (string * node))
| Special.

(** The first entry of a directory listing with the given name. *)
Fixpoint entry (nm : string) (es : list (string * node)) : option node :=
  match es with
  | [] => None
  | (n, c) :: r => if String.eqb n nm then Some c else entry nm r
  end.

(** Replace the entry with the given name, or add it at the end. *)
Fixpoint set_entry (nm : string) (c : node) (es : list (string * node))
  : list (string * node) :=
  match es with
  | [] => [(nm, c)]
  | (n, c0) :: r =>
      if String.eqb n nm then (n, c) :: r else (n, c0) :: set_entry nm c r
  end.

(** The node a path leads to. *)
Fixpoint lookup_path (t : node) (p : path) : option node :=
  match p with
  | [] => Some t
  | c :: p' =>
      match t with
      | Dir es =>
          match entry c es with
          | Some child => lookup_path child p'
          | None => None
          end
      | _ => None
      end
  end.

(** [Path.exists()], [Path.is_dir()], [Path.is_file()]. *)
Definition path_exists (t : node) (p : path) : bool :=
  match lookup_path t p with Some _ => true | None => false end.

Definition is_dir_node (n : node) : bool :=
  match n with Dir _ => true | _ => false end.

Definition is_file_node (n : node) : bool :=
  match n with File _ => true | _ => false end.

Definition is_dir (t : node) (p : path) : bool :=
  match lookup_path t p with Some n => is_dir_node n | None => false end.

(** A chain of fresh empty directories. *)
Fixpoint fresh_dirs (p : path) : node :=
  match p with
  | [] => Dir []
  | c :: p' => Dir [(c, fresh_dirs p')]
  end.

(** [Path.mkdir(parents=True, exist_ok=True)]. *)
Fixpoint mkdir_p (t : node) (p : path) : res node :=
  match p with
  | [] =>
      match t with
      | Dir _ => Ok t
      | _ => Raise FileExistsError
      end
  | c :: p' =>
      match t with
      | Dir es =>
          match entry c es with
          | Some child =>
              match mkdir_p child p' with
              | Ok child' => Ok (Dir (set_entry c child' es))
              | Raise e => Raise e
              end
          | None => Ok (Dir (set_entry c (fresh_dirs p') es))
          end
      | File _ => Raise NotADirectoryError
      | Special => Raise NotADirectoryError
      end
  end.

(** Open for writing and store [data]: the parent must be a directory and
    the target must not be one. *)
Fixpoint write_file (t : node) (p : path) (data : list Byte.byte) : res node :=
  match p with
  | [] => Raise IsADirectoryError
  | [c] =>
      match t with
      | Dir es =>
          match entry c es with
          | Some (Dir _) => Raise IsADirectoryError
          | _ => Ok (Dir (set_entry c (File data) es))
          end
      | _ => Raise NotADirectoryError
      end
  | c :: p' =>
      match t with
      | Dir es =>
          match entry c es with
          | Some child =>
              match write_file child p' data with
              | Ok child' => Ok (Dir (set_entry c child' es))
              | Raise e => Raise e
              end
          | None => Raise FileNotFoundError
          end
      | _ => Raise NotADirectoryError
      end
  end.

(** The directories below (and including) a node, parents first: the order
    in which [rglob] visits them. *)
Fixpoint walk_dirs (base : path) (t : node)
  : list (path * list (string * node)) :=
  match t with
  | Dir es =>
      (base, es) ::
      (fix go (l : list (string * node)) :=
         match l with
         | [] => []
         | (nm, c) :: r => walk_dirs (joinpath base nm) c ++ go r
         end) es
  | _ => []
  end.

(** The children of one directory, as paths. *)
Definition children (d : path * list (string * node)) : list (path * node) :=
  List.map (λ e, (joinpath d.1 e.1, e.2)) d.2.

(** [folder_path.rglob('*')]: every entry below the folder, each with the
    node it names. *)
Definition rglob (t : node) (folder_path : path) : list (path * node) :=
  match lookup_path t folder_path with
  | Some n => flat_map children (walk_dirs folder_path n)
  | None => []
  end.

End FS.
Export FS.

(** ** Folder arguments *)

(** [convert_folder] and the command line take the input folder as a
    string.  [Path(...)] and [os.stat] are not reimplemented; an argument
    is given by
    - [given]: the string as it was passed, which the error messages quote
      unchanged;
    - [Path]: the path [Path(given)] denotes in the tree;
    - [stat_error]: when the operating system refuses to look the path up
      (a name that is too long, a directory that may not be searched), the
      text of that [OSError]. *)
Record folder_arg := {
  given : string;
  Path :> path;
  stat_error : option string
}.

(** The path [p], passed as [text], with nothing refused. *)
Definition given_as (text : string) (p : path) : folder_arg :=
  {| given := text; Path := p; stat_error := None |}.

(** [Path(given).exists()]: true for an entry of the tree and false for a
    path that leads nowhere.  [pathlib] takes only "no such file or
    directory" and its like for an absent path; any other [OSError] of
    [os.stat] propagates. *)
Definition Path_exists (t : node) (a : folder_arg) : res bool :=
  if path_exists t a then Ok true
  else match stat_error a with
       | Some msg => Raise (OSError msg)
       | None => Ok false
       end.

(** ** Images and the collaborating libraries *)

(** An EXIF dictionary, in insertion order. *)
Definition exifd := list (pykey * pyval).

(** What the legacy accessor [_getexif] does: the attribute can be missing,
    the call can raise, and it returns [None] or a dictionary. *)
Inductive legacy_probe :=
| LegacyAbsent
| LegacyCall (r : res (option exifd)).

(** A decoded image, as far as the converter looks at it. *)
Record image := {
  mode : string;
  info : gmap string pyval;
  getexif : res exifd;
  _getexif : legacy_probe
}.

(** The image libraries.  [None] stands for a raised exception.
    - [decode]: [Image.open] on the bytes of a file;
    - [convert_rgb]: [img.convert('RGB')];
    - [piexif_dump]: [piexif.dump({"Exif": ifd})];
    - [jpeg_encode]: the encoder behind [img.save(path, **save_kwargs)]. *)
Record Collaborators := {
  decode : list Byte.byte → option image;
  convert_rgb : image → option image;
  piexif_dump : exifd → option (list Byte.byte);
  jpeg_encode : image → gmap string pyval → option (list Byte.byte)
}.

(** ** Run statistics, events and the world *)

Record stats := {
  total : nat;
  converted : nat;
  failed : nat;
  skipped : nat
}.

(** The calls that reach outside the process. *)
Inductive event :=
| EvMkdir (p : path)
| EvOpen (p : path)
| EvSave (p : path) (written : bool)
| EvPrint (msg : string)
| EvSummary (st : stats).

Record world := {
  fs : node;
  trace : list event
}.

Definition emit (e : event) : M world unit :=
  modify (λ w, {| fs := fs w; trace := trace w ++ [e] |}).

Definition set_fs (t : node) : M world unit :=
  modify (λ w, {| fs := t; trace := trace w |}).

(** [output_folder.mkdir(parents=True, exist_ok=True)]. *)
Definition mkdir (p : path) : M world unit :=
  emit (EvMkdir p) ;;;
  let! w := get in
  let! t := lift_res (mkdir_p (fs w) p) in
  set_fs t.

(** [Image.open(p)]. *)
Definition Image_open (lib : Collaborators) (p : path) : M world image :=
  emit (EvOpen p) ;;;
  let! w := get in
  match lookup_path (fs w) p with
  | Some (File data) =>
      match decode lib data with
      | Some im => ret im
      | None => raise LibraryError
      end
  | Some (Dir _) => raise IsADirectoryError
  | Some Special => raise LibraryError
  | None => raise FileNotFoundError
  end.

(** [img.save(p, **save_kwargs)].  When the encoder or the write fails,
    Pillow removes the file it created, so the tree is left as it was. *)
Definition Image_save (lib : Collaborators) (img : image) (p : path)
    (save_kwargs : gmap string pyval) : M world unit :=
  let! w := get in
  match jpeg_encode lib img save_kwargs with
  | Some data =>
      match write_file (fs w) p data with
      | Ok t => set_fs t ;;; emit (EvSave p true)
      | Raise e => emit (EvSave p false) ;;; raise e
      end
  | None => emit (EvSave p false) ;;; raise LibraryError
  end.

(** ** [class HEICToJPGConverter] *)

Record HEICToJPGConverter := {
  quality : Z;
  verbose : bool
}.

(** [__init__(self, quality=95, verbose=False)]: both arguments are stored
    as given; [setup_logging] only configures [logging]. *)
Definition __init__ (quality : Z) (verbose : bool) : res HEICToJPGConverter :=
  Ok {| quality := quality; verbose := verbose |}.

(** *** [find_heic_files] *)

Definition heic_extensions : gset string :=
  {[ ".heic"; ".heif"; ".HEIC"; ".HEIF" ]}.

(** [file_path.is_file() and file_path.suffix in heic_extensions], for an
    entry yielded by [rglob]. *)
Definition is_heic_entry (e : path * node) : bool :=
  is_file_node e.2 && bool_decide (suffix e.1 ∈ heic_extensions).

Definition find_heic_files (t : node) (folder_path : path) : list path :=
  List.map fst (List.filter is_heic_entry (rglob t folder_path)).

(** *** [preserve_metadata] *)

(** The dictionary [metadata_info]: each of its six keys is present or
    not. *)
Record metadata_info := {
  md_info : option (gmap string pyval);
  exif_raw : option pyval;
  xmp : option pyval;
  icc_profile : option pyval;
  exif_dict : option exifd;
  legacy_exif : option exifd
}.

Definition empty_metadata : metadata_info :=
  {| md_info := None; exif_raw := None; xmp := None; icc_profile := None;
     exif_dict := None; legacy_exif := None |}.

Definition set_md_info (i : gmap string pyval) (m : metadata_info) :=
  {| md_info := Some i; exif_raw := exif_raw m; xmp := xmp m;
     icc_profile := icc_profile m; exif_dict := exif_dict m;
     legacy_exif := legacy_exif m |}.
Definition set_exif_raw (v : pyval) (m : metadata_info) :=
  {| md_info := md_info m; exif_raw := Some v; xmp := xmp m;
     icc_profile := icc_profile m; exif_dict := exif_dict m;
     legacy_exif := legacy_exif m |}.
Definition set_xmp (v : pyval) (m : metadata_info) :=
  {| md_info := md_info m; exif_raw := exif_raw m; xmp := Some v;
     icc_profile := icc_profile m; exif_dict := exif_dict m;
     legacy_exif := legacy_exif m |}.
Definition set_icc_profile (v : pyval) (m : metadata_info) :=
  {| md_info := md_info m; exif_raw := exif_raw m; xmp := xmp m;
     icc_profile := Some v; exif_dict := exif_dict m;
     legacy_exif := legacy_exif m |}.
Definition set_exif_dict (d : exifd) (m : metadata_info) :=
  {| md_info := md_info m; exif_raw := exif_raw m; xmp := xmp m;
     icc_profile := icc_profile m; exif_dict := Some d;
     legacy_exif := legacy_exif m |}.
Definition set_legacy_exif (d : exifd) (m : metadata_info) :=
  {| md_info := md_info m; exif_raw := exif_raw m; xmp := xmp m;
     icc_profile := icc_profile m; exif_dict := exif_dict m;
     legacy_exif := Some d |}.

(** [len(v)], evaluated inside the debug messages: [None], booleans,
    integers, floats and objects without [__len__] raise [TypeError]. *)
Definition py_len (v : pyval) : res nat :=
  match v with
  | VStr s => Ok (String.length s)
  | VBytes b => Ok (List.length b)
  | VOther _ _ (Some n) => Ok n
  | _ => Raise TypeError
  end.

(** Truthiness of a dictionary. *)
Definition nonempty_map (m : gmap string pyval) : bool :=
  negb (Nat.eqb (size m) 0).

Definition nonempty_dict (d : exifd) : bool :=
  match d with [] => false | _ => true end.

(** [if key in source_image.info: metadata_info[slot] = ...; len(...)]. *)
Definition copy_key (source_image : image) (key : string)
    (store : pyval → metadata_info → metadata_info) : M metadata_info unit :=
  match info source_image !! key with
  | Some v => modify (store v) ;;; let! _ := lift_res (py_len v) in ret tt
  | None => ret tt
  end.

(** Lines 80-97: the generic info mapping. *)
Definition extract_info (source_image : image) : M metadata_info unit :=
  if nonempty_map (info source_image) then
    modify (set_md_info (info source_image)) ;;;
    copy_key source_image "exif" set_exif_raw ;;;
    copy_key source_image "xmp" set_xmp ;;;
    copy_key source_image "icc_profile" set_icc_profile
  else ret tt.

(** Lines 100-106: the structured EXIF view. *)
Definition extract_exif_dict (source_image : image) : M metadata_info unit :=
  try_except
    (let! d := lift_res (getexif source_image) in
     if nonempty_dict d then modify (set_exif_dict d) else ret tt)
    (λ _, ret tt).

(** Lines 109-115: the legacy accessor, called twice. *)
Definition extract_legacy_exif (source_image : image) : M metadata_info unit :=
  try_except
    (match _getexif source_image with
     | LegacyAbsent => ret tt
     | LegacyCall r =>
         let! o := lift_res r in
         match o with
         | Some d =>
             if nonempty_dict d then
               let! _ := lift_res r in modify (set_legacy_exif d)
             else ret tt
         | None => ret tt
         end
     end)
    (λ _, ret tt).

Definition preserve_metadata (source_image : image) (target_path : path)
  : metadata_info :=
  snd (try_except
         (extract_info source_image ;;;
          extract_exif_dict source_image ;;;
          extract_legacy_exif source_image)
         (λ _, ret tt) empty_metadata).

(** *** [verify_metadata_preservation] *)

Record verification := {
  exif_preserved : bool;
  icc_profile_preserved : bool;
  metadata_count_original : nat;
  metadata_count_converted : nat;
  preserved_tags : list pykey
}.

Definition verify_metadata_preservation (lib : Collaborators)
    (original_path converted_path : path) : M world verification :=
  let v0 := {| exif_preserved := false; icc_profile_preserved := false;
               metadata_count_original := 0; metadata_count_converted := 0;
               preserved_tags := [] |} in
  try_except
    (let! original_img := Image_open lib original_path in
     let original_metadata := preserve_metadata original_img converted_path in
     let v1 := {| exif_preserved := false; icc_profile_preserved := false;
                  metadata_count_original :=
                    size (default ∅ (md_info original_metadata));
                  metadata_count_converted := 0;
                  preserved_tags := [] |} in
     try_except
       (let! converted_img := Image_open lib converted_path in
        let! converted_exif := lift_res (getexif converted_img) in
        let converted_info := info converted_img in
        ret {| exif_preserved := nonempty_dict converted_exif;
               icc_profile_preserved :=
                 bool_decide (is_Some (converted_info !! "icc_profile"));
               metadata_count_original := metadata_count_original v1;
               metadata_count_converted := size converted_info;
               preserved_tags := List.map fst converted_exif |})
       (λ _, ret v1))
    (λ _, ret v0).

(** *** [convert_single_file] *)

Section Converter.

Variable lib : Collaborators.
Variable self : HEICToJPGConverter.

(** Lines 211-247: the EXIF bytes to attach, tried from three sources.  A
    failed attempt leaves [exif_data] as it was. *)
Definition exif_data (metadata : metadata_info) : option pyval :=
  (* First try: raw EXIF from image info *)
  let exif_data1 :=
    match exif_raw metadata with
    | Some v => Some v
    | None => None
    end in
  (* Second try: convert EXIF dictionary using piexif *)
  let exif_data2 :=
    match exif_dict metadata with
    | Some d =>
        if negb (truthy_opt exif_data1) then
          let exif_ifd := List.filter (λ kv, valid_exif_tag kv.1) d in
          if nonempty_dict exif_ifd then
            match piexif_dump lib exif_ifd with
            | Some b => Some (VBytes b)
            | None => exif_data1
            end
          else exif_data1
        else exif_data1
    | None => exif_data1
    end in
  (* Third try: legacy EXIF *)
  match legacy_exif metadata with
  | Some d =>
      if negb (truthy_opt exif_data2) then
        match piexif_dump lib d with
        | Some b => Some (VBytes b)
        | None => exif_data2
        end
      else exif_data2
  | None => exif_data2
  end.

(** The keys of the info mapping that the loop of lines 267-272 copies. *)
Definition other_metadata (kv : string * pyval) : Prop :=
  (kv.1 ∉ ["exif"; "icc_profile"; "xmp"]) ∧ is_scalar kv.2.

#[local] Instance other_metadata_dec kv : Decision (other_metadata kv).
Proof. unfold other_metadata. apply _. Defined.

(** Lines 205-272: the keyword arguments of [img.save].  Entries copied
    from the info mapping are assigned last, so they win over earlier
    ones. *)
Definition save_kwargs (metadata : metadata_info) : gmap string pyval :=
  let kw0 : gmap string pyval :=
    {[ "format" := VStr "JPEG";
       "quality" := VInt (quality self);
       "optimize" := VBool true ]} in
  let kw1 :=
    match exif_data metadata with
    | Some v => if truthy v then <["exif" := v]> kw0 else kw0
    | None => kw0
    end in
  let kw2 :=
    match icc_profile metadata with
    | Some v => <["icc_profile" := v]> kw1
    | None => kw1
    end in
  match md_info metadata with
  | Some i => filter other_metadata i ∪ kw2
  | None => kw2
  end.

(** Lines 182-186. *)
Definition output_path_of (source_path : path) (output_folder : option path)
  : path :=
  match output_folder with
  | Some d => joinpath d (stem source_path +:+ ".jpg")
  | None => joinpath (parent source_path) (stem source_path +:+ ".jpg")
  end.

(** Lines 196-199: open the source, convert to RGB if necessary. *)
Definition open_rgb (source_path : path) : M world image :=
  let! img := Image_open lib source_path in
  if String.eqb (mode img) "RGB" then ret img
  else match convert_rgb lib img with
       | Some img' => ret img'
       | None => raise LibraryError
       end.

(** Line 183: the output folder, when one is given, is created first. *)
Definition make_output_folder (output_folder : option path) : M world unit :=
  match output_folder with
  | Some d => mkdir d
  | None => ret tt
  end.

(** Lines 278-288: the verification of verbose mode, used for logging
    only. *)
Definition verify_if_verbose (source_path output_path : path) : M world unit :=
  if verbose self then
    let! _ := verify_metadata_preservation lib source_path output_path in
    ret tt
  else ret tt.

(** The body of the [try] block, lines 181-291. *)
Definition convert_single_file_body (source_path : path)
    (output_folder : option path) : M world bool :=
  make_output_folder output_folder ;;;
  let output_path := output_path_of source_path output_folder in
  let! w := get in
  if path_exists (fs w) output_path then ret true
  else
    let! img := open_rgb source_path in
    let metadata := preserve_metadata img output_path in
    Image_save lib img output_path (save_kwargs metadata) ;;;
    verify_if_verbose source_path output_path ;;;
    ret true.

Definition convert_single_file (source_path : path)
    (output_folder : option path) : M world bool :=
  try_except (convert_single_file_body source_path output_folder)
             (λ _, ret false).

End Converter.

(** *** [convert_folder] *)

Section Folder.

(** The per-file call of line 338.  [convert_folder] below passes
    [convert_single_file]; the loop is written for any callee, as its
    [except] clause is. *)
Variable single : path → option path → M world bool.

Definition incr_converted (st : stats) : stats :=
  {| total := total st; converted := S (converted st);
     failed := failed st; skipped := skipped st |}.

Definition incr_failed (st : stats) : stats :=
  {| total := total st; converted := converted st;
     failed := S (failed st); skipped := skipped st |}.

(** Lines 332-336. *)
Definition file_output_folder (input_path : path) (output_path : option path)
    (heic_file : path) : res (option path) :=
  match output_path with
  | Some out =>
      match relative_to heic_file input_path with
      | Ok relative_path => Ok (Some (out ++ parent relative_path))
      | Raise e => Raise e
      end
  | None => Ok None
  end.

(** One turn of the loop, lines 330-347. *)
Definition process_file (input_path : path) (output_path : option path)
    (st : stats) (heic_file : path) : M world stats :=
  try_except
    (let! folder :=
       lift_res (file_output_folder input_path output_path heic_file) in
     let! success := single heic_file folder in
     if success : bool then ret (incr_converted st) else ret (incr_failed st))
    (λ _, ret (incr_failed st)).

Fixpoint convert_each (input_path : path) (output_path : option path)
    (st : stats) (heic_files : list path) : M world stats :=
  match heic_files with
  | [] => ret st
  | heic_file :: rest =>
      let! st' := process_file input_path output_path st heic_file in
      convert_each input_path output_path st' rest
  end.

(** [stats['converted'] / stats['total'] * 100], as an exact fraction. *)
Definition success_rate (st : stats) : res (Z * Z) :=
  if Nat.eqb (total st) 0 then Raise ZeroDivisionError
  else Ok (Z.of_nat (converted st) * 100, Z.of_nat (total st)).

(** Lines 350-356: the message is formatted, then logged. *)
Definition log_summary (st : stats) : M world unit :=
  let! _ := lift_res (success_rate st) in
  emit (EvSummary st).

(** Lines 297-358.  [input_folder] is the string argument: line 308
    builds the path from it, lines 311 and 314 test that path, and the
    messages of lines 312 and 315 format the string itself.
    [output_folder] is [None] when no output folder is given or the string
    is empty. *)
Definition convert_folder_with (input_folder : folder_arg)
    (output_folder : option path) : M world stats :=
  let input_path := Path input_folder in
  let output_path := output_folder in
  let! w := get in
  let! found := lift_res (Path_exists (fs w) input_folder) in
  if negb found then
    raise (ValueError ("Input folder does not exist: "
                       +:+ given input_folder))
  else if negb (is_dir (fs w) input_path) then
    raise (ValueError ("Input path is not a directory: "
                       +:+ given input_folder))
  else
    let heic_files := find_heic_files (fs w) input_path in
    match heic_files with
    | [] => ret {| total := 0; converted := 0; failed := 0; skipped := 0 |}
    | _ :: _ =>
        let! st := convert_each input_path output_path
                     {| total := List.length heic_files; converted := 0;
                        failed := 0; skipped := 0 |} heic_files in
        log_summary st ;;;
        ret st
    end.

End Folder.

Definition convert_folder (lib : Collaborators) (self : HEICToJPGConverter)
  : folder_arg → option path → M world stats :=
  convert_folder_with (convert_single_file lib self).

(** ** [main] *)

(** The parsed command line: the positional folder, the output folder,
    the quality and the verbose flag. *)
Record args := {
  input_folder : folder_arg;
  output : option path;
  arg_quality : Z;
  arg_verbose : bool
}.

(** The process exit code.  [sys.exit] inside the [try] raises
    [SystemExit], which [except Exception] lets through. *)
Definition main (lib : Collaborators) (a : args) : M world Z :=
  if negb ((1 <=? arg_quality a) && (arg_quality a <=? 100)) then
    emit (EvPrint "Error: Quality must be between 1 and 100") ;;;
    ret 1
  else
    let! converter := lift_res (__init__ (arg_quality a) (arg_verbose a)) in
    try_except
      (let! st := convert_folder lib converter (input_folder a) (output a) in
       if Nat.eqb (failed st) 0 then ret 0
       else if (0 <? converted st)%nat then ret 1
       else ret 2)
      (λ e, emit (EvPrint ("Error: " +:+ exc_str e)) ;;; ret 3).

(** * The vocabulary of the properties *)

(** ** Effects of a computation *)

(** [steps R m]: whatever [m] returns or raises, the world it leaves is
    related by [R] to the world it started in. *)
Definition steps {A} (R : relation world) (m : M world A) : Prop :=
  ∀ w, R w (m w).2.

(** The world only gains events, all of them in [P]. *)
Definition emitting (P : event → Prop) : relation world :=
  λ w w', ∃ evs, trace w' = trace w ++ evs ∧ Forall P evs.

(** The tree is left as it was. *)
Definition same_fs : relation world := λ w w', fs w' = fs w.

(** The events of opening an image. *)
Definition open_event (e : event) : Prop :=
  match e with
  | EvOpen _ => True
  | _ => False
  end.

(** A completed encode: [img.save] returned and the output was written. *)
Definition is_written (e : event) : bool :=
  match e with
  | EvSave _ true => true
  | _ => false
  end.

Definition encodes (evs : list event) : nat :=
  List.length (List.filter is_written evs).

(** An image was opened for decoding. *)
Definition is_open (e : event) : bool :=
  match e with
  | EvOpen _ => true
  | _ => false
  end.

Definition decodes (evs : list event) : nat :=
  List.length (List.filter is_open evs).

(** Events other than a completed encode. *)
Definition quiet (e : event) : Prop := is_written e = false.

(** The event of the [mkdir] call of line 183. *)
Definition mkdir_event (output_folder : option path) : list event :=
  match output_folder with
  | Some d => [EvMkdir d]
  | None => []
  end.

(** ** Outcomes of the batch loop *)

(** What became of one discovered file. *)
Inductive file_outcome :=
| Converted
| ReturnedFalse
| Raised.

Definition outcome_of (r : res bool) : file_outcome :=
  match r with
  | Ok true => Converted
  | Ok false => ReturnedFalse
  | Raise _ => Raised
  end.

Definition is_converted (o : file_outcome) : bool :=
  match o with Converted => true | _ => false end.

Definition count_converted (os : list file_outcome) : nat :=
  List.length (List.filter is_converted os).

Definition count_failed (os : list file_outcome) : nat :=
  List.length (List.filter (λ o, negb (is_converted o)) os).

Definition tally (st : stats) (os : list file_outcome) : stats :=
  {| total := total st;
     converted := converted st + count_converted os;
     failed := failed st + count_failed os;
     skipped := skipped st |}.

Definition zero_stats : stats :=
  {| total := 0; converted := 0; failed := 0; skipped := 0 |}.

(** The counters the loop of line 327 starts from. *)
Definition initial_stats (heic_files : list path) : stats :=
  {| total := List.length heic_files; converted := 0; failed := 0;
     skipped := 0 |}.

Section Outcomes.

Variable single : path → option path → M world bool.
Variable input_path : path.
Variable output_path : option path.

(** The guarded statements of one turn, lines 332-338. *)
Definition attempt (heic_file : path) : M world bool :=
  let! folder :=
    lift_res (file_output_folder input_path output_path heic_file) in
  single heic_file folder.

(** The outcomes of the files in order, each run in the world its
    predecessors left. *)
Fixpoint outcomes (heic_files : list path) (w : world) : list file_outcome :=
  match heic_files with
  | [] => []
  | f :: rest => outcome_of (attempt f w).1 :: outcomes rest (attempt f w).2
  end.

Fixpoint world_after (heic_files : list path) (w : world) : world :=
  match heic_files with
  | [] => w
  | f :: rest => world_after rest (attempt f w).2
  end.

End Outcomes.

(** ** Sources of the EXIF payload *)

(** Line 250: the payload is attached when it is truthy. *)
Definition attached (exif : option pyval) : option pyval :=
  match exif with
  | Some v => if truthy v then Some v else None
  | None => None
  end.

(** The first candidate that is truthy. *)
Fixpoint first_truthy (candidates : list (option pyval)) : option pyval :=
  match candidates with
  | [] => None
  | c :: rest => if truthy_opt c then c else first_truthy rest
  end.

Section ExifSources.

Variable lib : Collaborators.

(** A dictionary converted to EXIF bytes after the tag filter; an empty
    filtered dictionary and a failed conversion give nothing. *)
Definition convert_filtered (o : option exifd) : option pyval :=
  match o with
  | Some d =>
      let ifd := List.filter (λ kv, valid_exif_tag kv.1) d in
      if nonempty_dict ifd then VBytes <$> piexif_dump lib ifd else None
  | None => None
  end.

(** A dictionary converted to EXIF bytes as it is. *)
Definition convert_whole (o : option exifd) : option pyval :=
  match o with
  | Some d => VBytes <$> piexif_dump lib d
  | None => None
  end.

(** The three sources in order of priority: the raw value, the filtered
    structured dictionary, the legacy view as a whole. *)
Definition exif_by_priority (metadata : metadata_info) : option pyval :=
  first_truthy [exif_raw metadata;
                convert_filtered (exif_dict metadata);
                convert_whole (legacy_exif metadata)].

(** The order of the sources as the specification words it: the legacy
    view is converted "the same way" as the structured one, with the tag
    filter. *)
Definition exif_as_specified (metadata : metadata_info) : option pyval :=
  first_truthy [exif_raw metadata;
                convert_filtered (exif_dict metadata);
                convert_filtered (legacy_exif metadata)].

End ExifSources.

(** ** The command line *)

(** What [convert_folder] raises for an input path that is not in the
    tree: the error of the refused [os.stat] if there is one, the
    [ValueError] of line 312 otherwise. *)
Definition input_missing (input_folder : folder_arg) : exc :=
  match stat_error input_folder with
  | Some msg => OSError msg
  | None => ValueError ("Input folder does not exist: " +:+ given input_folder)
  end.

Definition in_range (q : Z) : bool := (1 <=? q) && (q <=? 100).

Definition quality_error : event :=
  EvPrint "Error: Quality must be between 1 and 100".

(** ** Entries below a directory *)

(** [below t rel n]: the relative path [rel], which is not empty, leads
    from the directory [t] to the entry [n]. *)
Inductive below : node → path → node → Prop :=
| below_child es nm c :
    In (nm, c) es → below (Dir es) [nm] c
| below_deeper es nm c rel n :
    In (nm, c) es → below c rel n → below (Dir es) (nm :: rel) n.

(** ** What a run leaves in place *)

(** An entry persists as [n'] when a regular file (or special entry) is
    left exactly as it was and a directory is still a directory. *)
Definition persists (n n' : node) : Prop :=
  match n with
  | File _ | Special => n' = n
  | Dir _ => is_dir_node n' = true
  end.

(** Every entry of [t], except possibly the one at [p], persists in [t']. *)
Definition extends_except (p : path) (t t' : node) : Prop :=
  ∀ q n, q ≠ p → lookup_path t q = Some n →
         ∃ n', lookup_path t' q = Some n' ∧ persists n n'.

(** Every entry of [t] persists in [t']. *)
Definition extends_tree (t t' : node) : Prop :=
  ∀ q n, lookup_path t q = Some n →
         ∃ n', lookup_path t' q = Some n' ∧ persists n n'.

Definition grows_except (p : path) : relation world :=
  λ w w', extends_except p (fs w) (fs w').

Definition grows : relation world :=
  λ w w', extends_tree (fs w) (fs w').

(** ** Metadata values *)

(** The values [len] accepts: strings, bytes and the objects that have
    a length (tuples, lists, dicts). *)
Definition has_len (v : pyval) : bool :=
  match v with
  | VStr _ | VBytes _ | VOther _ _ (Some _) => true
  | _ => false
  end.

Definition sized_or_absent (o : option pyval) : bool :=
  match o with
  | Some v => has_len v
  | None => true
  end.

(** The structured view, probed on its own. *)
Definition probed_exif_dict (img : image) : option exifd :=
  match getexif img with
  | Ok d => if nonempty_dict d then Some d else None
  | Raise _ => None
  end.

(** The legacy view, probed on its own. *)
Definition probed_legacy_exif (img : image) : option exifd :=
  match _getexif img with
  | LegacyCall (Ok (Some d)) => if nonempty_dict d then Some d else None
  | _ => None
  end.

(** The entries [save_kwargs] starts from, lines 205-209. *)
Definition base_kwargs (self : HEICToJPGConverter) : gmap string pyval :=
  {[ "format" := VStr "JPEG";
     "quality" := VInt (quality self);
     "optimize" := VBool true ]}.

(** The record [verify_metadata_preservation] starts from. *)
Definition no_verification : verification :=
  {| exif_preserved := false; icc_profile_preserved := false;
     metadata_count_original := 0; metadata_count_converted := 0;
     preserved_tags := [] |}.

(** * Sample collaborators and trees *)

Module Sample.

Definition x01 : Byte.byte := Byte.x01.
Definition x02 : Byte.byte := Byte.x02.

(** A picture with XMP and an ICC profile but no EXIF of any kind. *)
Definition plain_picture : image :=
  {| mode := "RGB";
     info := {[ "xmp" := VBytes [x01; x02]; "icc_profile" := VBytes [x02];
                "dpi" := VInt 72 ]};
     getexif := Ok [];
     _getexif := LegacyCall (Ok None) |}.

(** A picture whose only EXIF source is the legacy accessor: the tag
    DateTimeOriginal and one key outside the 16-bit range. *)
Definition legacy_picture : image :=
  {| mode := "RGB";
     info := ∅;
     getexif := Ok [];
     _getexif :=
       LegacyCall (Ok (Some [(KInt 36867, VStr "2024:01:01 10:00:00");
                             (KInt 70000, VInt 1)]))
  |}.

(** A picture whose only EXIF source is the structured view, which the
    EXIF writer rejects. *)
Definition structured_picture : image :=
  {| mode := "RGB";
     info := ∅;
     getexif := Ok [(KInt 271, VOther 0 true None)];
     _getexif := LegacyAbsent |}.

(** The decoder reads the first byte: [0x01] is the plain picture, [0x02]
    the legacy one, [0x03] the structured one, anything else is not an
    image. *)
Definition sample_decode (data : list Byte.byte) : option image :=
  match data with
  | Byte.x01 :: _ => Some plain_picture
  | Byte.x02 :: _ => Some legacy_picture
  | Byte.x03 :: _ => Some structured_picture
  | _ => None
  end.

(** The entries the sample EXIF writer encodes, a part of the table
    [piexif] keeps for the Exif IFD: DateTimeOriginal (36867) and
    DateTimeDigitized (36868) take text, ISOSpeedRatings (34855) a 16-bit
    and PixelXDimension (40962) and PixelYDimension (40963) a 32-bit
    unsigned integer. *)
Definition exif_ifd_entry (kv : pykey * pyval) : bool :=
  match kv with
  | (KInt 36867, (VStr _ | VBytes _)) => true
  | (KInt 36868, (VStr _ | VBytes _)) => true
  | (KInt 34855, VInt n) => (0 <=? n) && (n <? 65536)
  | (KInt 40962, VInt n) => (0 <=? n) && (n <? 4294967296)
  | (KInt 40963, VInt n) => (0 <=? n) && (n <? 4294967296)
  | _ => false
  end.

(** The EXIF writer raises on a key that is not a tag of the Exif IFD
    (tag 271, Make, belongs to another IFD; 70000 is no tag at all) and on
    a value of the wrong type.  The bytes it returns stand for the block
    [piexif] builds: one byte per entry. *)
Definition sample_dump (d : exifd) : option (list Byte.byte) :=
  if forallb exif_ifd_entry d
  then Some (List.map (λ _, x01) d)
  else None.

(** The encoder writes a marker byte followed by the EXIF payload it was
    given. *)
Definition sample_encode (img : image) (kw : gmap string pyval)
  : option (list Byte.byte) :=
  match kw !! "exif" with
  | Some (VBytes b) => Some (x01 :: b)
  | _ => Some [x01]
  end.

Definition sample_lib : Collaborators :=
  {| decode := sample_decode;
     convert_rgb := λ img, Some img;
     piexif_dump := sample_dump;
     jpeg_encode := sample_encode |}.

(** The same libraries with an encoder that always fails. *)
Definition broken_encoder_lib : Collaborators :=
  {| decode := sample_decode;
     convert_rgb := λ img, Some img;
     piexif_dump := sample_dump;
     jpeg_encode := λ _ _, None |}.

Definition converter95 : HEICToJPGConverter :=
  {| quality := 95; verbose := false |}.

(** [photos/a.heic] decodes, [photos/b.heic] is corrupt, [photos/c.heic]
    is already converted. *)
Definition photos : node :=
  Dir [("photos",
        Dir [("a.heic", File [x01]);
             ("b.heic", File []);
             ("c.heic", File [x01]);
             ("c.jpg", File [x02]);
             ("notes.txt", File [])])].

Definition world0 : world := {| fs := photos; trace := [] |}.

(** The folder [photos], passed as [photos]. *)
Definition photos_arg : folder_arg := given_as "photos" ["photos"].

(** [shots/s.heic] has a structured EXIF view only, [shots/l.heic] a
    legacy one only. *)
Definition shots : node :=
  Dir [("shots", Dir [("s.heic", File [Byte.x03]); ("l.heic", File [x02])])].

Definition world1 : world := {| fs := shots; trace := [] |}.

(** A per-file call that raises on [b.heic]. *)
Definition raising_single (p : path) (o : option path) : M world bool :=
  if String.eqb (name p) "b.heic" then raise LibraryError
  else convert_single_file sample_lib converter95 p o.

End Sample.

(** Further sample trees. *)
Module MoreSamples.

(** Two sources with the same stem in one folder, and a nested folder. *)
Definition twins : node :=
  Dir [("twins", Dir [("a.heic", File [Sample.x01]);
                      ("a.HEIF", File [Sample.x02]);
                      ("trip", Dir [("b.heic", File [Sample.x01])])])].

Definition twins_world : world := {| fs := twins; trace := [] |}.

Definition twins_arg : folder_arg := given_as "twins" ["twins"].

(** A folder that is not there, passed with a leading [./] and a trailing
    slash. *)
Definition nowhere_arg : folder_arg := given_as "./nowhere/" ["nowhere"].

(** A regular file of the sample tree, passed as a relative path. *)
Definition notes_arg : folder_arg :=
  given_as "photos/notes.txt" ["photos"; "notes.txt"].

(** A name of 300 characters, over the 255 bytes a file name may have:
    [os.stat] fails with ENAMETOOLONG. *)
Definition long_name : string := String.concat "" (List.repeat "x" 300).

Definition long_arg : folder_arg :=
  {| given := long_name; Path := [long_name];
     stat_error := Some ("[Errno 36] File name too long: '"
                         +:+ long_name +:+ "'") |}.

(** A picture whose ICC profile entry is [None]. *)
Definition odd_picture : image :=
  {| mode := "RGB";
     info := {[ "exif" := VBytes [Sample.x01]; "icc_profile" := VNone ]};
     getexif := Ok [(KInt 271, VStr "maker")];
     _getexif := LegacyCall (Ok (Some [(KInt 271, VStr "maker")])) |}.

(** A picture with every kind of metadata. *)
Definition rich_picture : image :=
  {| mode := "RGB";
     info := {[ "exif" := VBytes [Sample.x01]; "xmp" := VBytes [Sample.x02];
                "icc_profile" := VBytes [Sample.x02];
                "quality" := VInt 10; "chroma" := VOther 0 true None ]};
     getexif := Ok [(KInt 271, VStr "maker")];
     _getexif := LegacyCall (Raise LibraryError) |}.

End MoreSamples.

(** * Properties *)

(** ** The file-system tree *)

Section FSFacts.

Lemma entry_set_entry nm c es : entry nm (set_entry nm c es) = Some c.
Proof.
  induction es as [|[n c0] r IH]; simpl.
  - by rewrite String.eqb_refl.
  - destruct (String.eqb n nm) eqn:E; simpl; rewrite E; auto.
Qed.

Lemma set_entry_same nm c es : entry nm es = Some c → set_entry nm c es = es.
Proof.
  induction es as [|[n c0] r IH]; simpl; [done|].
  destruct (String.eqb n nm); intros H.
  - congruence.
  - by rewrite IH.
Qed.

Lemma lookup_path_app t p q :
  lookup_path t (p ++ q) =
  match lookup_path t p with
  | Some n => lookup_path n q
  | None => None
  end.
Proof.
  revert t; induction p as [|c p IH]; intros t; simpl; [done|].
  destruct t as [|es|]; try done.
  destruct (entry c es); [apply IH | done].
Qed.

(** A path below which something exists is a directory. *)
Lemma lookup_path_child_dir t p c n :
  lookup_path t (joinpath p c) = Some n →
  ∃ es, lookup_path t p = Some (Dir es).
Proof.
  unfold joinpath. rewrite lookup_path_app.
  destruct (lookup_path t p) as [[|es|]|]; simpl; try done. eauto.
Qed.

(** [mkdir(parents=True, exist_ok=True)] leaves an existing directory, and
    the whole tree, as it is. *)
Lemma mkdir_p_existing t p es :
  lookup_path t p = Some (Dir es) → mkdir_p t p = Ok t.
Proof.
  revert t; induction p as [|c p IH]; intros t; simpl.
  - intros [= ->]. done.
  - destruct t as [|es0|]; try done.
    destruct (entry c es0) as [child|] eqn:E; [|done].
    intros H. rewrite (IH _ H). by rewrite set_entry_same.
Qed.

Lemma write_file_below es c c' p data :
  write_file (Dir es) (c :: c' :: p) data =
  match entry c es with
  | Some child =>
      match write_file child (c' :: p) data with
      | Ok child' => Ok (Dir (set_entry c child' es))
      | Raise e => Raise e
      end
  | None => Raise FileNotFoundError
  end.
Proof. reflexivity. Qed.

(** After a successful write the path exists. *)
Lemma write_file_exists t p data t' :
  write_file t p data = Ok t' → path_exists t' p = true.
Proof.
  unfold path_exists.
  revert t t'; induction p as [|c p IH]; intros t t'; [done|].
  destruct p as [|c' p'].
  - simpl. destruct t as [|es|]; try done.
    destruct (entry c es) as [[| |]|]; intros [= <-];
      by rewrite entry_set_entry.
  - destruct t as [|es|]; try done. rewrite write_file_below.
    destruct (entry c es) as [child|]; [|done].
    destruct (write_file child (c' :: p') data) as [child'|] eqn:W; [|done].
    intros [= <-]. cbn [lookup_path]. rewrite entry_set_entry.
    apply (IH _ _ W).
Qed.

End FSFacts.

(** ** Running a computation *)

Section Run.

Context {S A B : Type}.

Lemma bind_Ok (m : M S A) (k : A → M S B) s a s' :
  m s = (Ok a, s') → bind m k s = k a s'.
Proof. unfold bind. by intros ->. Qed.

Lemma bind_Raise (m : M S A) (k : A → M S B) s e s' :
  m s = (Raise e, s') → bind m k s = (Raise e, s').
Proof. unfold bind. by intros ->. Qed.

Lemma try_except_Ok (m : M S A) (h : exc → M S A) s a s' :
  m s = (Ok a, s') → try_except m h s = (Ok a, s').
Proof. unfold try_except. by intros ->. Qed.

Lemma try_except_Raise (m : M S A) (h : exc → M S A) s e s' :
  m s = (Raise e, s') → try_except m h s = h e s'.
Proof. unfold try_except. by intros ->. Qed.

End Run.

(** A run is known once its result is: the world is the one it leaves. *)
Lemma run_result {S A} (m : M S A) s r : (m s).1 = r → m s = (r, (m s).2).
Proof. intros <-. by destruct (m s). Qed.

Lemma mkdir_existing d es w :
  lookup_path (fs w) d = Some (Dir es) →
  mkdir d w = (Ok tt, {| fs := fs w; trace := trace w ++ [EvMkdir d] |}).
Proof.
  intros H. unfold mkdir, bind, emit, modify, get, lift_res, set_fs. simpl.
  by rewrite (mkdir_p_existing _ _ _ H).
Qed.

(** ** Effects of a computation *)

Section Steps.

Context {A B : Type} (R : relation world) `{!PreOrder R}.

Lemma steps_ret (a : A) : steps R (ret a).
Proof. intros w. reflexivity. Qed.

Lemma steps_raise e : steps R (raise (A:=A) e).
Proof. intros w. reflexivity. Qed.

Lemma steps_lift_res (r : res A) : steps R (lift_res r).
Proof. intros w. reflexivity. Qed.

Lemma steps_get : steps R get.
Proof. intros w. reflexivity. Qed.

Lemma steps_bind (m : M world A) (k : A → M world B) :
  steps R m → (∀ a, steps R (k a)) → steps R (bind m k).
Proof.
  intros Hm Hk w. unfold bind. specialize (Hm w).
  destruct (m w) as [[a|e] w1]; simpl in *; [|done].
  etrans; [exact Hm | apply Hk].
Qed.

Lemma steps_try_except (m : M world A) (h : exc → M world A) :
  steps R m → (∀ e, steps R (h e)) → steps R (try_except m h).
Proof.
  intros Hm Hh w. unfold try_except. specialize (Hm w).
  destruct (m w) as [[a|e] w1]; simpl in *; [done|].
  etrans; [exact Hm | apply Hh].
Qed.

End Steps.

#[local] Instance emitting_preorder P : PreOrder (emitting P).
Proof.
  split.
  - intros w. exists []. by rewrite app_nil_r.
  - intros w1 w2 w3 (e1 & E1 & F1) (e2 & E2 & F2).
    exists (e1 ++ e2). rewrite E2, E1, app_assoc. split; [done|].
    by apply Forall_app.
Qed.

#[local] Instance same_fs_preorder : PreOrder same_fs.
Proof. split; unfold same_fs; [done | congruence]. Qed.

Lemma emitting_emit (P : event → Prop) e : P e → steps (emitting P) (emit e).
Proof. intros H w. exists [e]. simpl. auto. Qed.

Lemma emitting_set_fs P t : steps (emitting P) (set_fs t).
Proof. intros w. exists []. simpl. by rewrite app_nil_r. Qed.

Lemma same_fs_emit e : steps same_fs (emit e).
Proof. by intros w. Qed.

(** Walk through a computation built from the monad's operations; [tac]
    settles the primitive steps. *)
Ltac steps_walk tac :=
  repeat first
    [ tac
    | apply steps_bind; [apply _| |intros ?]
    | apply steps_try_except; [apply _| |intros ?]
    | apply steps_ret; apply _ | apply steps_raise; apply _
    | apply steps_lift_res; apply _
    | apply steps_get; apply _
    | progress (cbv zeta)
    | match goal with
      | |- steps _ (match ?x with _ => _ end) => destruct x
      | |- steps _ (if ?x then _ else _) => destruct x
      end ].

Ltac plain_events :=
  first [ apply emitting_emit; exact I | apply emitting_set_fs ].

Lemma Image_open_events lib p : steps (emitting open_event) (Image_open lib p).
Proof. unfold Image_open. steps_walk plain_events. Qed.

Lemma Image_open_same_fs lib p : steps same_fs (Image_open lib p).
Proof. unfold Image_open. steps_walk ltac:(apply same_fs_emit). Qed.

(** The verification pass only opens images and changes no file. *)
Lemma verify_events lib p q :
  steps (emitting open_event) (verify_metadata_preservation lib p q).
Proof.
  unfold verify_metadata_preservation.
  steps_walk ltac:(apply Image_open_events).
Qed.

Lemma verify_same_fs lib p q :
  steps same_fs (verify_metadata_preservation lib p q).
Proof.
  unfold verify_metadata_preservation.
  steps_walk ltac:(apply Image_open_same_fs).
Qed.

Lemma emitting_weaken {A} (P Q : event → Prop) (m : M world A) :
  (∀ e, P e → Q e) → steps (emitting P) m → steps (emitting Q) m.
Proof.
  intros H Hm w. destruct (Hm w) as (evs & E & F).
  exists evs. split; [done|]. eapply Forall_impl; eauto.
Qed.

(** ** The batch loop *)

Section FolderFacts.

Variable single : path → option path → M world bool.
Variable input_path : path.
Variable output_path : option path.

Lemma process_file_attempt st f w :
  process_file single input_path output_path st f w =
  (Ok (if is_converted
            (outcome_of (attempt single input_path output_path f w).1)
       then incr_converted st else incr_failed st),
   (attempt single input_path output_path f w).2).
Proof.
  unfold process_file, attempt, try_except, bind, lift_res, ret.
  destruct (file_output_folder input_path output_path f) as [folder|e];
    simpl; [|done].
  destruct (single f folder w) as [[[|]|e] w1]; done.
Qed.

Lemma outcomes_length heic_files w :
  List.length (outcomes single input_path output_path heic_files w)
  = List.length heic_files.
Proof. revert w; induction heic_files; intros w; simpl; auto. Qed.

Lemma count_split os :
  (count_converted os + count_failed os = List.length os)%nat.
Proof.
  unfold count_converted, count_failed.
  induction os as [|o os IH]; simpl; [done|].
  destruct (is_converted o); simpl; lia.
Qed.

(** The loop never raises and leaves exactly the tally of the outcomes. *)
Lemma convert_each_tally heic_files st w :
  convert_each single input_path output_path st heic_files w =
  (Ok (tally st (outcomes single input_path output_path heic_files w)),
   world_after single input_path output_path heic_files w).
Proof.
  revert st w; induction heic_files as [|f rest IH]; intros st w.
  - simpl. unfold ret, tally, count_converted, count_failed. simpl.
    destruct st; simpl. repeat f_equal; lia.
  - cbn [convert_each outcomes world_after]. unfold bind.
    rewrite process_file_attempt, IH.
    f_equal. unfold tally, count_converted, count_failed.
    destruct st; cbn [List.filter].
    destruct (is_converted
                (outcome_of (attempt single input_path output_path f w).1));
      simpl;
      f_equal; f_equal; lia.
Qed.

End FolderFacts.

(** The whole of [convert_folder], branch by branch. *)
Lemma convert_folder_with_unfold single (input_folder : folder_arg)
    output_path w :
  convert_folder_with single input_folder output_path w =
  if negb (path_exists (fs w) input_folder) then
    (Raise (input_missing input_folder), w)
  else if negb (is_dir (fs w) input_folder) then
    (Raise (ValueError ("Input path is not a directory: "
                        +:+ given input_folder)), w)
  else
    let heic_files := find_heic_files (fs w) input_folder in
    match heic_files with
    | [] => (Ok {| total := 0; converted := 0; failed := 0; skipped := 0 |}, w)
    | _ :: _ =>
        let st := tally {| total := List.length heic_files; converted := 0;
                           failed := 0; skipped := 0 |}
                        (outcomes single input_folder output_path heic_files w) in
        let w1 := world_after single input_folder output_path heic_files w in
        (Ok st, {| fs := fs w1; trace := trace w1 ++ [EvSummary st] |})
    end.
Proof.
  unfold convert_folder_with, bind at 1, get.
  unfold bind at 1, lift_res, Path_exists, input_missing.
  destruct (path_exists (fs w) input_folder);
    [|by destruct (stat_error input_folder)]. simpl.
  destruct (is_dir (fs w) input_folder); [|done]. simpl.
  destruct (find_heic_files (fs w) input_folder) as [|f rest] eqn:E; [done|].
  unfold bind at 1. rewrite convert_each_tally.
  unfold log_summary, success_rate, bind, lift_res, emit, modify, ret. simpl.
  done.
Qed.

(** ** Single-file conversion *)

Lemma encodes_app a b : encodes (a ++ b) = (encodes a + encodes b)%nat.
Proof. unfold encodes. by rewrite List.filter_app, length_app. Qed.

Lemma encodes_quiet evs : Forall quiet evs → encodes evs = 0%nat.
Proof.
  unfold encodes, quiet. induction 1 as [|e evs He _ IH]; simpl; [done|].
  by rewrite He.
Qed.

Lemma open_is_quiet e : open_event e → quiet e.
Proof. by destruct e. Qed.

Section SingleFileFacts.

Variable lib : Collaborators.
Variable self : HEICToJPGConverter.

Lemma mkdir_quiet p : steps (emitting quiet) (mkdir p).
Proof.
  unfold mkdir.
  steps_walk ltac:(first [ apply emitting_emit; reflexivity
                         | apply emitting_set_fs ]).
Qed.

Lemma open_rgb_quiet p : steps (emitting quiet) (open_rgb lib p).
Proof.
  unfold open_rgb.
  steps_walk ltac:(apply (emitting_weaken open_event);
                   [apply open_is_quiet | apply Image_open_events]).
Qed.

(** [img.save] either writes the output and reports one completed encode,
    or raises and leaves the tree alone. *)
Lemma Image_save_spec img p kw w :
  match Image_save lib img p kw w with
  | (Ok _, w') =>
      trace w' = trace w ++ [EvSave p true] ∧ path_exists (fs w') p = true
  | (Raise _, w') =>
      trace w' = trace w ++ [EvSave p false] ∧ fs w' = fs w
  end.
Proof.
  unfold Image_save, bind, get.
  destruct (jpeg_encode lib img kw) as [data|]; [|done].
  destruct (write_file (fs w) p data) as [t|e] eqn:W; [|done].
  simpl. split; [done|]. by apply write_file_exists in W.
Qed.

(** The verification pass returns normally whatever happens inside. *)
Lemma verify_returns p q w :
  ∃ v, (verify_metadata_preservation lib p q w).1 = Ok v.
Proof.
  unfold verify_metadata_preservation, try_except.
  unfold bind at 1.
  destruct (Image_open lib p w) as [[img|e] w1]; [|by eexists].
  match goal with |- context [match ?m w1 with _ => _ end] =>
    destruct (m w1) as [[v|e] w2] end; by eexists.
Qed.

(** The skip of lines 188-191: with the output in place the call reports
    success, and its only effect is the [mkdir] call on a directory that
    exists. *)
Lemma convert_single_file_skip source_path output_folder w :
  path_exists (fs w) (output_path_of source_path output_folder) = true →
  convert_single_file lib self source_path output_folder w =
  (Ok true, {| fs := fs w; trace := trace w ++ mkdir_event output_folder |}).
Proof.
  intros Hex.
  unfold convert_single_file, try_except, convert_single_file_body,
    make_output_folder.
  destruct output_folder as [d|]; simpl in *.
  - unfold path_exists in Hex.
    destruct (lookup_path (fs w) (joinpath d (stem source_path +:+ ".jpg")))
      as [n|] eqn:L; [|done].
    destruct (lookup_path_child_dir _ _ _ _ L) as [es Hd].
    rewrite (bind_Ok _ _ _ _ _ (mkdir_existing _ _ _ Hd)).
    unfold bind, get, path_exists. simpl. by rewrite L.
  - unfold bind, ret, get. simpl. rewrite Hex.
    rewrite app_nil_r. by destruct w.
Qed.

(** One call completes at most one encode, and if it completes one the
    output exists afterwards. *)
Lemma convert_single_file_once source_path output_folder w r w' :
  convert_single_file lib self source_path output_folder w = (r, w') →
  ∃ evs, trace w' = trace w ++ evs ∧ (encodes evs ≤ 1)%nat ∧
         (encodes evs = 1%nat →
          path_exists (fs w') (output_path_of source_path output_folder) = true).
Proof.
  set (outp := output_path_of source_path output_folder).
  unfold convert_single_file, try_except, convert_single_file_body.
  fold outp.
  set (prep := make_output_folder output_folder).
  assert (Hprep : steps (emitting quiet) prep).
  { unfold prep, make_output_folder.
    destruct output_folder; [apply mkdir_quiet | apply steps_ret, _]. }
  unfold bind at 1.
  destruct (Hprep w) as (e0 & E0 & F0).
  destruct (prep w) as [[[]|e] w1]; simpl in E0 |- *.
  2: { intros [= <- <-]. exists e0. rewrite (encodes_quiet _ F0).
       split; [done|]. split; [lia|done]. }
  unfold bind at 1, get.
  destruct (path_exists (fs w1) outp) eqn:Hex; simpl.
  { intros [= <- <-]. exists e0. rewrite (encodes_quiet _ F0).
    split; [done|]. split; [lia|done]. }
  unfold bind at 1.
  destruct (open_rgb_quiet source_path w1) as (e1 & E1 & F1).
  destruct (open_rgb lib source_path w1) as [[img|e] w2]; simpl in E1 |- *.
  2: { intros [= <- <-]. exists (e0 ++ e1).
       rewrite E1, E0, <- app_assoc, encodes_app,
         (encodes_quiet _ F0), (encodes_quiet _ F1).
       split; [done|]. split; [lia|done]. }
  unfold bind at 1.
  pose proof (Image_save_spec img outp
                (save_kwargs lib self (preserve_metadata img outp)) w2) as Hs.
  destruct (Image_save lib img outp _ w2) as [[[]|e] w3]; simpl;
    destruct Hs as [E2 Hfs].
  2: { intros [= <- <-]. exists (e0 ++ e1 ++ [EvSave outp false]).
       rewrite E2, E1, E0, <- !app_assoc, !encodes_app,
         (encodes_quiet _ F0), (encodes_quiet _ F1).
       split; [done|]. unfold encodes; simpl. split; [lia | intros; lia]. }
  set (ver := verify_if_verbose lib self source_path outp).
  assert (Hv : steps (emitting quiet) ver ∧ steps same_fs ver ∧
               ∃ u, (ver w3).1 = Ok u).
  { unfold ver, verify_if_verbose. destruct (verbose self).
    - split; [|split].
      + steps_walk ltac:(apply (emitting_weaken open_event);
                         [apply open_is_quiet | apply verify_events]).
      + steps_walk ltac:(apply verify_same_fs).
      + unfold bind.
        destruct (verify_returns source_path outp w3) as [v Hv].
        destruct (verify_metadata_preservation lib source_path outp w3)
          as [[v'|e] w4]; simpl in *; [by eexists | done].
    - split; [apply steps_ret, _ | split; [apply steps_ret, _ | by eexists]]. }
  destruct Hv as (Hq & Hsame & [u Hu]).
  unfold bind at 1.
  destruct (Hq w3) as (e3 & E3 & F3). specialize (Hsame w3).
  destruct (ver w3) as [[[]|e] w4]; simpl in *; [|done].
  intros [= <- <-].
  exists (e0 ++ e1 ++ [EvSave outp true] ++ e3).
  rewrite E3, E2, E1, E0, <- !app_assoc, !encodes_app,
    (encodes_quiet _ F0), (encodes_quiet _ F1), (encodes_quiet _ F3).
  split; [done|]. unfold encodes; simpl. split; [lia|].
  intros _. unfold same_fs in Hsame. by rewrite Hsame.
Qed.

End SingleFileFacts.

(** ** Batch orchestration *)

(** C5.  Whenever [convert_folder] returns, [total] is the number of
    discovered files and [converted + failed = total]: every discovered
    file has exactly one outcome, a call that returned true is counted as
    converted, and a call that returned false or raised is counted as
    failed, the files after it being processed all the same.  This holds
    for any per-file callee, [convert_single_file] included. *)
Theorem convert_folder_accounts_for_every_file
    (single : path → option path → M world bool)
    (input_folder : folder_arg) (output_folder : option path)
    (w w' : world) (st : stats) :
  convert_folder_with single input_folder output_folder w = (Ok st, w') →
  let heic_files := find_heic_files (fs w) input_folder in
  let os := outcomes single input_folder output_folder heic_files w in
  total st = List.length heic_files ∧
  (converted st + failed st = total st)%nat ∧
  List.length os = List.length heic_files ∧
  converted st = count_converted os ∧
  failed st = count_failed os.
Proof.
  rewrite convert_folder_with_unfold.
  destruct (path_exists (fs w) input_folder); [|done].
  destruct (is_dir (fs w) input_folder); [|done]. cbn [negb]. cbv zeta.
  destruct (find_heic_files (fs w) input_folder) as [|f rest] eqn:E.
  - intros [= <- <-]. done.
  - rewrite <- E. intros [= <- <-].
    set (os := outcomes _ _ _ _ _).
    pose proof (count_split os) as Hc.
    pose proof (outcomes_length single input_folder output_folder
                  (find_heic_files (fs w) input_folder) w) as Hl.
    fold os in Hl. cbn [tally total converted failed]. lia.
Qed.

Lemma convert_folder_accounts_for_every_file_witness :
  let st := {| total := 3; converted := 2; failed := 1; skipped := 0 |} in
  let w' := (convert_folder_with Sample.raising_single Sample.photos_arg None
               Sample.world0).2 in
  let os := outcomes Sample.raising_single ["photos"] None
              (find_heic_files Sample.photos ["photos"]) Sample.world0 in
  convert_folder_with Sample.raising_single Sample.photos_arg None
    Sample.world0 = (Ok st, w') ∧
  (total st = List.length (find_heic_files Sample.photos ["photos"]) ∧
   (converted st + failed st = total st)%nat ∧
   List.length os = List.length (find_heic_files Sample.photos ["photos"]) ∧
   converted st = count_converted os ∧
   failed st = count_failed os).
Proof.
  intros st w' os.
  assert (H : convert_folder_with Sample.raising_single Sample.photos_arg None
                Sample.world0 = (Ok st, w')) by (vm_compute; reflexivity).
  split; [exact H|].
  exact (convert_folder_accounts_for_every_file _ _ _ _ _ _ H).
Defined.

(** C9.  The [skipped] counter of every returned stats record is 0, and a
    file whose output already exists is counted under [converted], with
    [skipped] left alone. *)
Theorem skipped_is_never_incremented
    (lib : Collaborators) (self : HEICToJPGConverter) :
  (∀ single input_folder output_folder w st w',
     convert_folder_with single input_folder output_folder w = (Ok st, w') →
     skipped st = 0%nat) ∧
  (∀ input_path output_path st heic_file folder w,
     file_output_folder input_path output_path heic_file = Ok folder →
     path_exists (fs w) (output_path_of heic_file folder) = true →
     ∃ w1,
       process_file (convert_single_file lib self) input_path output_path
         st heic_file w = (Ok (incr_converted st), w1) ∧
       fs w1 = fs w ∧
       skipped (incr_converted st) = skipped st).
Proof.
  split.
  - intros single input_folder output_folder w st w'.
    rewrite convert_folder_with_unfold.
    destruct (path_exists (fs w) input_folder); [|done].
    destruct (is_dir (fs w) input_folder); [|done]. simpl.
    destruct (find_heic_files (fs w) input_folder);
      by intros [= <- <-].
  - intros input_path output_path st heic_file folder w Hf Hex.
    rewrite process_file_attempt. unfold attempt.
    rewrite Hf. unfold bind, lift_res.
    rewrite (convert_single_file_skip _ _ _ _ _ Hex). simpl.
    eexists. split; [reflexivity|]. done.
Qed.

Lemma skipped_is_never_incremented_witness :
  let st := {| total := 3; converted := 2; failed := 1; skipped := 0 |} in
  let w' := (convert_folder Sample.sample_lib Sample.converter95
               Sample.photos_arg None Sample.world0).2 in
  (convert_folder_with
     (convert_single_file Sample.sample_lib Sample.converter95)
     Sample.photos_arg None Sample.world0 = (Ok st, w') ∧
   skipped st = 0%nat) ∧
  (file_output_folder ["photos"] None ["photos"; "c.heic"] = Ok None ∧
   path_exists Sample.photos ["photos"; "c.jpg"] = true ∧
   ∃ w1,
     process_file (convert_single_file Sample.sample_lib Sample.converter95)
       ["photos"] None (initial_stats [["photos"; "c.heic"]])
       ["photos"; "c.heic"] Sample.world0
     = (Ok (incr_converted (initial_stats [["photos"; "c.heic"]])), w1) ∧
     fs w1 = Sample.photos ∧
     skipped (incr_converted (initial_stats [["photos"; "c.heic"]])) = 0%nat).
Proof.
  intros st w'.
  destruct (skipped_is_never_incremented Sample.sample_lib Sample.converter95)
    as [H1 H2].
  assert (H : convert_folder_with
                (convert_single_file Sample.sample_lib Sample.converter95)
                Sample.photos_arg None Sample.world0 = (Ok st, w'))
    by (vm_compute; reflexivity).
  split; [split; [exact H | exact (H1 _ _ _ _ _ _ H)]|].
  split; [reflexivity|]. split; [vm_compute; reflexivity|].
  apply (H2 ["photos"] None (initial_stats [["photos"; "c.heic"]])
            ["photos"; "c.heic"] None Sample.world0).
  - reflexivity.
  - vm_compute; reflexivity.
Defined.

(** C10.  The division in the summary is never evaluated with a total of
    zero.  [convert_folder] never raises [ZeroDivisionError]; when no file
    is discovered it returns the all-zero record at once, the world
    untouched and no summary logged; and when control reaches the summary,
    the record the loop hands over has the number of discovered files,
    which is not zero, as its total, so the summary is formatted and
    logged. *)
Theorem summary_division_never_by_zero
    (single : path → option path → M world bool)
    (input_folder : folder_arg) (output_folder : option path) (w : world) :
  let heic_files := find_heic_files (fs w) input_folder in
  (convert_folder_with single input_folder output_folder w).1
    ≠ Raise ZeroDivisionError ∧
  (heic_files = [] →
   ∀ st w', convert_folder_with single input_folder output_folder w
              = (Ok st, w') →
            st = zero_stats ∧ w' = w) ∧
  (heic_files ≠ [] →
   ∀ st w1, convert_each single input_folder output_folder
              (initial_stats heic_files) heic_files w = (Ok st, w1) →
            total st = List.length heic_files ∧ total st ≠ 0%nat ∧
            log_summary st w1 =
              (Ok tt, {| fs := fs w1; trace := trace w1 ++ [EvSummary st] |})).
Proof.
  cbv zeta. split; [|split].
  - rewrite convert_folder_with_unfold.
    destruct (path_exists (fs w) input_folder);
      [|by unfold input_missing; destruct (stat_error input_folder)].
    destruct (is_dir (fs w) input_folder); [|done]. cbn [negb]. cbv zeta.
    by destruct (find_heic_files (fs w) input_folder).
  - intros Hnil st w'. rewrite convert_folder_with_unfold.
    destruct (path_exists (fs w) input_folder); [|done].
    destruct (is_dir (fs w) input_folder); [|done]. cbn [negb]. cbv zeta.
    rewrite Hnil. by intros [= <- <-].
  - intros Hne st w1. rewrite convert_each_tally. intros [= <- <-].
    assert (Hlen : List.length (find_heic_files (fs w) input_folder) ≠ 0%nat).
    { destruct (find_heic_files (fs w) input_folder); [done | simpl; lia]. }
    split; [done|]. split; [exact Hlen|].
    unfold log_summary, success_rate, bind, lift_res.
    cbn [tally total initial_stats].
    apply Nat.eqb_neq in Hlen. rewrite Hlen. reflexivity.
Qed.

Lemma summary_division_never_by_zero_witness :
  let single := convert_single_file Sample.sample_lib Sample.converter95 in
  let empty_world := {| fs := Dir [("photos", Dir [("notes.txt", File [])])];
                        trace := [] |} in
  let heic_files := find_heic_files Sample.photos ["photos"] in
  let st := {| total := 3; converted := 2; failed := 1; skipped := 0 |} in
  (find_heic_files (fs empty_world) ["photos"] = [] ∧
   convert_folder_with single Sample.photos_arg None empty_world
     = (Ok zero_stats, empty_world)) ∧
  (heic_files ≠ [] ∧
   (convert_each single ["photos"] None (initial_stats heic_files) heic_files
      Sample.world0).1 = Ok st ∧
   total st = List.length heic_files ∧ total st ≠ 0%nat).
Proof.
  intros single empty_world heic_files st. split.
  - split; [vm_compute; reflexivity|].
    destruct (summary_division_never_by_zero single Sample.photos_arg None
                empty_world) as (_ & H & _).
    assert (E : convert_folder_with single Sample.photos_arg None empty_world
                = (Ok zero_stats,
                   (convert_folder_with single Sample.photos_arg None
                      empty_world).2))
      by (apply run_result; vm_compute; reflexivity).
    destruct (H eq_refl _ _ E) as [_ Hw].
    rewrite E. by rewrite Hw.
  - assert (Hne : heic_files ≠ []) by (vm_compute; discriminate).
    split; [exact Hne|].
    assert (E : (convert_each single ["photos"] None (initial_stats heic_files)
                   heic_files Sample.world0).1 = Ok st)
      by (vm_compute; reflexivity).
    split; [exact E|].
    destruct (summary_division_never_by_zero single Sample.photos_arg None
                Sample.world0) as (_ & _ & H).
    destruct (H Hne _ _ (run_result _ _ _ E)) as (H1 & H2 & _).
    split; [exact H1 | exact H2].
Defined.

(** ** Idempotence of single-file conversion *)

(** C7.  Single-file conversion is idempotent.  When the output path
    exists, the call returns true, the tree is unchanged, and the only
    event is the [mkdir] of an output folder that is already there: no
    image is opened and nothing is saved.  Hence two calls in a row on the
    same source and output folder complete at most one encode. *)
Theorem convert_single_file_idempotent
    (lib : Collaborators) (self : HEICToJPGConverter)
    (source_path : path) (output_folder : option path) (w : world) :
  (path_exists (fs w) (output_path_of source_path output_folder) = true →
   convert_single_file lib self source_path output_folder w =
     (Ok true, {| fs := fs w; trace := trace w ++ mkdir_event output_folder |})
   ∧ decodes (mkdir_event output_folder) = 0%nat
   ∧ encodes (mkdir_event output_folder) = 0%nat) ∧
  (∀ r1 w1 r2 w2,
     convert_single_file lib self source_path output_folder w = (r1, w1) →
     convert_single_file lib self source_path output_folder w1 = (r2, w2) →
     ∃ evs, trace w2 = trace w ++ evs ∧ (encodes evs ≤ 1)%nat).
Proof.
  split.
  - intros Hex. split; [by apply convert_single_file_skip|].
    by destruct output_folder.
  - intros r1 w1 r2 w2 H1 H2.
    destruct (convert_single_file_once _ _ _ _ _ _ _ H1) as (e1 & E1 & B1 & X1).
    destruct (convert_single_file_once _ _ _ _ _ _ _ H2) as (e2 & E2 & B2 & _).
    exists (e1 ++ e2). rewrite E2, E1, <- app_assoc. split; [done|].
    rewrite encodes_app.
    destruct (decide (encodes e1 = 1%nat)) as [Hone|Hnone]; [|lia].
    rewrite (convert_single_file_skip _ _ _ _ _ (X1 Hone)) in H2.
    injection H2 as _ Hw2. rewrite <- Hw2 in E2. simpl in E2.
    apply app_inv_head in E2. subst e2.
    assert (encodes (mkdir_event output_folder) = 0%nat)
      by (by destruct output_folder).
    lia.
Qed.

Lemma convert_single_file_idempotent_witness :
  let csf := convert_single_file Sample.sample_lib Sample.converter95 in
  let a := ["photos"; "a.heic"] in
  let w1 := (csf a None Sample.world0).2 in
  let w2 := (csf a None w1).2 in
  (path_exists Sample.photos ["photos"; "c.jpg"] = true ∧
   csf ["photos"; "c.heic"] None Sample.world0 = (Ok true, Sample.world0)) ∧
  (csf a None Sample.world0 = (Ok true, w1) ∧
   csf a None w1 = (Ok true, w2) ∧
   ∃ evs, trace w2 = [] ++ evs ∧ (encodes evs ≤ 1)%nat).
Proof.
  intros csf a w1 w2. split.
  - split; [vm_compute; reflexivity|].
    destruct (convert_single_file_idempotent Sample.sample_lib
                Sample.converter95 ["photos"; "c.heic"] None Sample.world0)
      as [H _].
    destruct H as (H & _); [vm_compute; reflexivity|].
    fold csf in H. rewrite H. reflexivity.
  - assert (E1 : csf a None Sample.world0 = (Ok true, w1))
      by (apply run_result; vm_compute; reflexivity).
    assert (E2 : csf a None w1 = (Ok true, w2))
      by (apply run_result; vm_compute; reflexivity).
    split; [exact E1|]. split; [exact E2|].
    destruct (convert_single_file_idempotent Sample.sample_lib
                Sample.converter95 a None Sample.world0) as [_ H].
    exact (H _ _ _ _ E1 E2).
Defined.

(** ** Errors inside single-file conversion *)

Section SingleFileErrors.

Variable lib : Collaborators.
Variable self : HEICToJPGConverter.
Variable source_path : path.
Variable output_folder : option path.

Let output_path := output_path_of source_path output_folder.
Let csf := convert_single_file lib self source_path output_folder.

Lemma verify_if_verbose_returns p q w :
  ∃ w', verify_if_verbose lib self p q w = (Ok tt, w').
Proof.
  unfold verify_if_verbose. destruct (verbose self); [|by eexists].
  unfold bind. destruct (verify_returns lib p q w) as [v Hv].
  destruct (verify_metadata_preservation lib p q w) as [[v'|e] w'];
    simpl in *; [by eexists | done].
Qed.

(** An error while creating the output folder. *)
Lemma folder_error_gives_false e w w0 :
  make_output_folder output_folder w = (Raise e, w0) →
  csf w = (Ok false, w0).
Proof.
  intros H. unfold csf, convert_single_file, convert_single_file_body.
  by rewrite (try_except_Raise _ _ _ e w0); [|rewrite (bind_Raise _ _ _ _ _ H)].
Qed.

(** The body once the folder is there and the output is not. *)
Lemma body_after_folder w w0 :
  make_output_folder output_folder w = (Ok tt, w0) →
  path_exists (fs w0) output_path = false →
  convert_single_file_body lib self source_path output_folder w =
  (let! img := open_rgb lib source_path in
   Image_save lib img output_path
     (save_kwargs lib self (preserve_metadata img output_path)) ;;;
   verify_if_verbose lib self source_path output_path ;;;
   ret true) w0.
Proof.
  intros H Hex. unfold convert_single_file_body.
  rewrite (bind_Ok _ _ _ _ _ H). fold output_path.
  unfold bind at 1, get. by rewrite Hex.
Qed.

(** An error while opening, decoding or converting the source to RGB. *)
Lemma open_error_gives_false e w w0 w1 :
  make_output_folder output_folder w = (Ok tt, w0) →
  path_exists (fs w0) output_path = false →
  open_rgb lib source_path w0 = (Raise e, w1) →
  csf w = (Ok false, w1).
Proof.
  intros H Hex Ho. unfold csf, convert_single_file.
  rewrite (try_except_Raise _ _ _ e w1); [done|].
  rewrite (body_after_folder _ _ H Hex). by rewrite (bind_Raise _ _ _ _ _ Ho).
Qed.

(** An error while encoding or writing the output. *)
Lemma save_error_gives_false e img w w0 w1 w2 :
  make_output_folder output_folder w = (Ok tt, w0) →
  path_exists (fs w0) output_path = false →
  open_rgb lib source_path w0 = (Ok img, w1) →
  Image_save lib img output_path
    (save_kwargs lib self (preserve_metadata img output_path)) w1
    = (Raise e, w2) →
  csf w = (Ok false, w2).
Proof.
  intros H Hex Ho Hs. unfold csf, convert_single_file.
  rewrite (try_except_Raise _ _ _ e w2); [done|].
  rewrite (body_after_folder _ _ H Hex), (bind_Ok _ _ _ _ _ Ho).
  by rewrite (bind_Raise _ _ _ _ _ Hs).
Qed.

(** Once [img.save] has returned the call reports success: nothing that
    went wrong while the metadata was read or converted, and nothing the
    verification meets, changes the result. *)
Lemma saved_gives_true img w w0 w1 w2 :
  make_output_folder output_folder w = (Ok tt, w0) →
  path_exists (fs w0) output_path = false →
  open_rgb lib source_path w0 = (Ok img, w1) →
  Image_save lib img output_path
    (save_kwargs lib self (preserve_metadata img output_path)) w1
    = (Ok tt, w2) →
  (csf w).1 = Ok true.
Proof.
  intros H Hex Ho Hs. unfold csf, convert_single_file.
  destruct (verify_if_verbose_returns source_path output_path w2) as [w3 Hv].
  rewrite (try_except_Ok _ _ _ true w3); [done|].
  rewrite (body_after_folder _ _ H Hex), (bind_Ok _ _ _ _ _ Ho).
  rewrite (bind_Ok _ _ _ _ _ Hs). by rewrite (bind_Ok _ _ _ _ _ Hv).
Qed.

(** The call itself never raises. *)
Lemma convert_single_file_returns w :
  ∃ b w', csf w = (Ok b, w').
Proof.
  unfold csf, convert_single_file, try_except.
  destruct (convert_single_file_body lib self source_path output_folder w)
    as [[b|e] w']; by eexists _, _.
Qed.

End SingleFileErrors.

(** C6, as amended.  [convert_single_file] never raises: it always returns
    a boolean.  An error that reaches its outer handler (raised while the
    output folder is created, while the source is opened, decoded or
    converted to RGB, or while the output is encoded or written) gives
    false.  Errors met while metadata is read or converted and during the
    verification are caught where they occur: once [img.save] has returned
    the result is true. *)
Theorem convert_single_file_never_raises
    (lib : Collaborators) (self : HEICToJPGConverter)
    (source_path : path) (output_folder : option path) (w : world) :
  let output_path := output_path_of source_path output_folder in
  let csf := convert_single_file lib self source_path output_folder in
  (∃ b w', csf w = (Ok b, w')) ∧
  (∀ e w0,
     make_output_folder output_folder w = (Raise e, w0) →
     csf w = (Ok false, w0)) ∧
  (∀ w0,
     make_output_folder output_folder w = (Ok tt, w0) →
     path_exists (fs w0) output_path = false →
     (∀ e w1,
        open_rgb lib source_path w0 = (Raise e, w1) →
        csf w = (Ok false, w1)) ∧
     (∀ img w1,
        open_rgb lib source_path w0 = (Ok img, w1) →
        let kw := save_kwargs lib self (preserve_metadata img output_path) in
        (∀ e w2,
           Image_save lib img output_path kw w1 = (Raise e, w2) →
           csf w = (Ok false, w2)) ∧
        (∀ w2,
           Image_save lib img output_path kw w1 = (Ok tt, w2) →
           (csf w).1 = Ok true))).
Proof.
  cbv zeta. split; [apply convert_single_file_returns|].
  split; [intros e w0; apply folder_error_gives_false|].
  intros w0 H Hex. split.
  - intros e w1. by apply open_error_gives_false.
  - intros img w1 Ho. split.
    + intros e w2. by apply save_error_gives_false with (w0 := w0) (w1 := w1).
    + intros w2. by apply saved_gives_true with (w0 := w0) (w1 := w1).
Qed.

Lemma convert_single_file_never_raises_witness :
  let good := convert_single_file Sample.sample_lib Sample.converter95 in
  let bad := convert_single_file Sample.broken_encoder_lib Sample.converter95 in
  let a := ["photos"; "a.heic"] in
  let b := ["photos"; "b.heic"] in
  let w := Sample.world0 in
  let w1 := {| fs := Sample.photos; trace := [EvOpen a] |} in
  let kw := save_kwargs Sample.broken_encoder_lib Sample.converter95
              (preserve_metadata Sample.plain_picture ["photos"; "a.jpg"]) in
  (* the output folder is a regular file *)
  ((make_output_folder (Some ["photos"; "notes.txt"]) w).1
     = Raise FileExistsError ∧
   (good a (Some ["photos"; "notes.txt"]) w).1 = Ok false) ∧
  (* the source is not an image *)
  ((open_rgb Sample.sample_lib b w).1 = Raise LibraryError ∧
   (good b None w).1 = Ok false) ∧
  (* the encoder fails *)
  ((Image_save Sample.broken_encoder_lib Sample.plain_picture
      ["photos"; "a.jpg"] kw w1).1 = Raise LibraryError ∧
   (bad a None w).1 = Ok false) ∧
  (* the output is written *)
  ((Image_save Sample.sample_lib Sample.plain_picture ["photos"; "a.jpg"]
      (save_kwargs Sample.sample_lib Sample.converter95
         (preserve_metadata Sample.plain_picture ["photos"; "a.jpg"])) w1).1
     = Ok tt ∧
   (good a None w).1 = Ok true).
Proof.
  intros good bad a b w w1 kw.
  assert (Hw : make_output_folder None w = (Ok tt, w)) by reflexivity.
  split; [|split; [|split]].
  - assert (E : (make_output_folder (Some ["photos"; "notes.txt"]) w).1
                = Raise FileExistsError) by (vm_compute; reflexivity).
    split; [exact E|].
    destruct (convert_single_file_never_raises Sample.sample_lib
                Sample.converter95 a (Some ["photos"; "notes.txt"]) w)
      as (_ & H & _).
    unfold good. by rewrite (H _ _ (run_result _ _ _ E)).
  - assert (E : (open_rgb Sample.sample_lib b w).1 = Raise LibraryError)
      by (vm_compute; reflexivity).
    split; [exact E|].
    destruct (convert_single_file_never_raises Sample.sample_lib
                Sample.converter95 b None w) as (_ & _ & H).
    destruct (H w Hw) as [H1 _]; [vm_compute; reflexivity|].
    unfold good. by rewrite (H1 _ _ (run_result _ _ _ E)).
  - assert (E : (Image_save Sample.broken_encoder_lib Sample.plain_picture
                   ["photos"; "a.jpg"] kw w1).1 = Raise LibraryError)
      by (vm_compute; reflexivity).
    split; [exact E|].
    destruct (convert_single_file_never_raises Sample.broken_encoder_lib
                Sample.converter95 a None w) as (_ & _ & H).
    destruct (H w Hw) as [_ H2]; [vm_compute; reflexivity|].
    destruct (H2 Sample.plain_picture w1) as [H3 _];
      [vm_compute; reflexivity|].
    unfold bad. by rewrite (H3 _ _ (run_result _ _ _ E)).
  - match goal with |- ?x = _ ∧ _ =>
      assert (E : x = Ok tt) by (vm_compute; reflexivity) end.
    split; [exact E|].
    destruct (convert_single_file_never_raises Sample.sample_lib
                Sample.converter95 a None w) as (_ & _ & H).
    destruct (H w Hw) as [_ H2]; [vm_compute; reflexivity|].
    destruct (H2 Sample.plain_picture w1) as [_ H4];
      [vm_compute; reflexivity|].
    exact (H4 _ (run_result _ _ _ E)).
Defined.

(** C6, the claim as stated fails: an error raised while the metadata is
    handled does not make the call return false.  For [shots/s.heic] the
    EXIF writer raises on the structured view (the second attempt of lines
    223-239), the handler there swallows the error, and the call returns
    true. *)
Lemma metadata_error_still_succeeds :
  let md := preserve_metadata Sample.structured_picture ["shots"; "s.jpg"] in
  let d := [(KInt 271, VOther 0 true None)] in
  open_rgb Sample.sample_lib ["shots"; "s.heic"] Sample.world1
    = (Ok Sample.structured_picture,
       {| fs := Sample.shots; trace := [EvOpen ["shots"; "s.heic"]] |}) ∧
  exif_raw md = None ∧
  exif_dict md = Some d ∧
  List.filter (λ kv, valid_exif_tag kv.1) d = d ∧
  piexif_dump Sample.sample_lib d = None ∧
  (convert_single_file Sample.sample_lib Sample.converter95
     ["shots"; "s.heic"] None Sample.world1).1 = Ok true ∧
  (convert_single_file Sample.sample_lib Sample.converter95
     ["shots"; "s.heic"] None Sample.world1).1 ≠ Ok false.
Proof. vm_compute. repeat split; congruence. Qed.

(** ** The keyword arguments of [img.save] *)

Section SaveKwargs.

Variable lib : Collaborators.
Variable self : HEICToJPGConverter.

(** The copy loop of lines 267-272 leaves the three handled keys alone. *)
Lemma copy_loop_skips (i kw : gmap string pyval) (key : string) :
  key ∈ ["exif"; "icc_profile"; "xmp"] →
  (filter other_metadata i ∪ kw) !! key = kw !! key.
Proof.
  intros Hk. apply lookup_union_r, map_lookup_filter_None_2.
  right. intros x _ [Hn _]. by apply Hn.
Qed.

Lemma save_kwargs_exif metadata :
  save_kwargs lib self metadata !! "exif" = attached (exif_data lib metadata).
Proof.
  unfold save_kwargs. cbv zeta.
  set (kw0 := ({[ "format" := _; "quality" := _; "optimize" := _ ]}
               : gmap string pyval)).
  assert (H0 : kw0 !! "exif" = None) by done.
  set (kw1 := match exif_data lib metadata with Some _ => _ | None => _ end).
  assert (H1 : kw1 !! "exif" = attached (exif_data lib metadata)).
  { unfold kw1, attached. destruct (exif_data lib metadata) as [v|]; [|done].
    destruct (truthy v); [apply lookup_insert_eq | done]. }
  set (kw2 := match icc_profile metadata with Some _ => _ | None => _ end).
  assert (H2 : kw2 !! "exif" = attached (exif_data lib metadata)).
  { unfold kw2. destruct (icc_profile metadata); [|done].
    by rewrite lookup_insert_ne. }
  destruct (md_info metadata); [|done].
  rewrite copy_loop_skips; [done|]. apply list_elem_of_here.
Qed.

(** No assignment to [save_kwargs] uses the key ['xmp'], and the copy loop
    excludes it. *)
Lemma save_kwargs_xmp metadata : save_kwargs lib self metadata !! "xmp" = None.
Proof.
  unfold save_kwargs. cbv zeta.
  set (kw0 := ({[ "format" := _; "quality" := _; "optimize" := _ ]}
               : gmap string pyval)).
  assert (H0 : kw0 !! "xmp" = None) by done.
  set (kw1 := match exif_data lib metadata with Some _ => _ | None => _ end).
  assert (H1 : kw1 !! "xmp" = None).
  { unfold kw1. destruct (exif_data lib metadata) as [v|]; [|done].
    destruct (truthy v); [by rewrite lookup_insert_ne | done]. }
  set (kw2 := match icc_profile metadata with Some _ => _ | None => _ end).
  assert (H2 : kw2 !! "xmp" = None).
  { unfold kw2. destruct (icc_profile metadata); [|done].
    by rewrite lookup_insert_ne. }
  destruct (md_info metadata); [|done].
  rewrite copy_loop_skips; [done|]. set_solver.
Qed.

End SaveKwargs.

(** ** EXIF selection *)

(** A float is false exactly when it is [0.0] or [-0.0]. *)
Lemma truthy_float bits :
  0 ≤ bits < 2 ^ 64 →
  truthy (VFloat bits) = false ↔ bits = 0 ∨ bits = 2 ^ 63.
Proof.
  intros Hb. unfold truthy. rewrite negb_false_iff, Z.eqb_eq.
  rewrite Z.land_ones by lia.
  pose proof (Z.div_mod bits (2 ^ 63) ltac:(lia)) as Hd.
  pose proof (Z.mod_pos_bound bits (2 ^ 63) ltac:(lia)) as Hm.
  split.
  - intros H0. rewrite H0 in Hd.
    assert (0 ≤ bits `div` 2 ^ 63 < 2) by
      (split; [apply Z.div_pos; lia | apply Z.div_lt_upper_bound; lia]).
    lia.
  - intros [->| ->]; reflexivity.
Qed.

Section ExifPriority.

Variable lib : Collaborators.

Lemma attached_exif_data metadata :
  attached (exif_data lib metadata) = exif_by_priority lib metadata.
Proof.
  unfold exif_data, exif_by_priority, convert_filtered, convert_whole, attached.
  cbv zeta. cbn [first_truthy].
  destruct (exif_raw metadata) as [v|], (exif_dict metadata) as [d|],
    (legacy_exif metadata) as [l|];
    repeat first
      [ progress cbn [truthy_opt negb fmap option_fmap option_map]
      | match goal with
        | |- context [nonempty_dict ?x] => destruct (nonempty_dict x)
        | |- context [piexif_dump lib ?x] =>
            destruct (piexif_dump lib x) as [?|]
        | |- context [truthy ?x] => destruct (truthy x) eqn:?
        end ];
    congruence.
Qed.

End ExifPriority.

(** X20.  The EXIF payload handed to the encoder is the first truthy one
    of: (1) the raw EXIF value of the info mapping; (2) the structured
    EXIF dictionary converted to bytes, keeping only the entries whose key
    is an integer in [0, 65536); (3) the legacy EXIF view converted to
    bytes as a whole, without that filter.  When none of them yields a
    payload the encoder gets no ['exif'] argument, and a call whose
    [img.save] returns still reports success. *)
Theorem exif_attached_by_priority
    (lib : Collaborators) (self : HEICToJPGConverter) :
  (∀ metadata,
     save_kwargs lib self metadata !! "exif" = exif_by_priority lib metadata) ∧
  (∀ source_path output_folder w w0 img w1 w2,
     let output_path := output_path_of source_path output_folder in
     let metadata := preserve_metadata img output_path in
     make_output_folder output_folder w = (Ok tt, w0) →
     path_exists (fs w0) output_path = false →
     open_rgb lib source_path w0 = (Ok img, w1) →
     exif_by_priority lib metadata = None →
     Image_save lib img output_path (save_kwargs lib self metadata) w1
       = (Ok tt, w2) →
     save_kwargs lib self metadata !! "exif" = None ∧
     (convert_single_file lib self source_path output_folder w).1 = Ok true).
Proof.
  split.
  - intros metadata. by rewrite save_kwargs_exif, attached_exif_data.
  - intros source_path output_folder w w0 img w1 w2 output_path metadata
      Hf Hex Ho Hnone Hs.
    split.
    + by rewrite save_kwargs_exif, attached_exif_data.
    + by apply saved_gives_true
        with (w0 := w0) (img := img) (w1 := w1) (w2 := w2).
Qed.

Lemma exif_attached_by_priority_witness :
  let a := ["photos"; "a.heic"] in
  let out := ["photos"; "a.jpg"] in
  let w := Sample.world0 in
  let w1 := {| fs := Sample.photos; trace := [EvOpen a] |} in
  let metadata := preserve_metadata Sample.plain_picture out in
  let kw := save_kwargs Sample.sample_lib Sample.converter95 metadata in
  make_output_folder None w = (Ok tt, w) ∧
  path_exists (fs w) out = false ∧
  open_rgb Sample.sample_lib a w = (Ok Sample.plain_picture, w1) ∧
  exif_by_priority Sample.sample_lib metadata = None ∧
  (Image_save Sample.sample_lib Sample.plain_picture out kw w1).1 = Ok tt ∧
  kw !! "exif" = None ∧
  (convert_single_file Sample.sample_lib Sample.converter95 a None w).1
    = Ok true.
Proof.
  intros a out w w1 metadata kw.
  assert (H1 : make_output_folder None w = (Ok tt, w)) by reflexivity.
  assert (H2 : path_exists (fs w) out = false) by (vm_compute; reflexivity).
  assert (H3 : open_rgb Sample.sample_lib a w = (Ok Sample.plain_picture, w1))
    by (vm_compute; reflexivity).
  assert (H4 : exif_by_priority Sample.sample_lib metadata = None)
    by (vm_compute; reflexivity).
  assert (H5 : (Image_save Sample.sample_lib Sample.plain_picture out kw w1).1
               = Ok tt) by (vm_compute; reflexivity).
  do 5 (split; [assumption|]).
  exact (proj2 (exif_attached_by_priority Sample.sample_lib Sample.converter95)
           a None w w Sample.plain_picture w1 _ H1 H2 H3 H4
           (run_result _ _ _ H5)).
Defined.

(** C2 (the code departs from the claim).  The third attempt hands the
    legacy EXIF view to the EXIF writer as a whole: the key filter of the
    second attempt, which the claim extends to it, is not applied.  For
    [shots/l.heic], whose only EXIF source is the legacy accessor with the
    tag DateTimeOriginal and the key 70000, the writer raises on the key
    70000 and the picture is saved without EXIF; with the filter the entry
    of DateTimeOriginal would have been kept, converted and attached. *)
Theorem legacy_exif_is_not_filtered :
  (∀ lib self metadata,
     save_kwargs lib self metadata !! "exif" = exif_by_priority lib metadata) ∧
  (let metadata := preserve_metadata Sample.legacy_picture ["shots"; "l.jpg"] in
   let legacy := [(KInt 36867, VStr "2024:01:01 10:00:00");
                  (KInt 70000, VInt 1)] in
   let kept := [(KInt 36867, VStr "2024:01:01 10:00:00")] in
   let run := convert_single_file Sample.sample_lib Sample.converter95
                ["shots"; "l.heic"] None Sample.world1 in
   exif_raw metadata = None ∧
   exif_dict metadata = None ∧
   legacy_exif metadata = Some legacy ∧
   List.filter (λ kv, valid_exif_tag kv.1) legacy = kept ∧
   piexif_dump Sample.sample_lib legacy = None ∧
   piexif_dump Sample.sample_lib kept = Some [Sample.x01] ∧
   save_kwargs Sample.sample_lib Sample.converter95 metadata !! "exif" = None ∧
   exif_as_specified Sample.sample_lib metadata = Some (VBytes [Sample.x01]) ∧
   run.1 = Ok true ∧
   lookup_path (fs run.2) ["shots"; "l.jpg"] = Some (File [Sample.x01])).
Proof.
  split.
  - intros lib self metadata. by rewrite save_kwargs_exif, attached_exif_data.
  - vm_compute. by repeat split.
Qed.

(** C8 (the code departs from the claim).  XMP is extracted into the
    metadata bundle, yet no ['xmp'] argument ever reaches the encoder:
    nothing assigns it and the copy loop excludes the key.  The plain
    sample picture carries an XMP packet that is extracted and then
    dropped. *)
Theorem xmp_is_extracted_but_never_saved :
  (∀ lib self metadata, save_kwargs lib self metadata !! "xmp" = None) ∧
  (let metadata := preserve_metadata Sample.plain_picture ["photos"; "a.jpg"] in
   info Sample.plain_picture !! "xmp" = Some (VBytes [Sample.x01; Sample.x02]) ∧
   xmp metadata = Some (VBytes [Sample.x01; Sample.x02]) ∧
   save_kwargs Sample.sample_lib Sample.converter95 metadata !! "xmp" = None).
Proof.
  split; [intros; apply save_kwargs_xmp|].
  vm_compute. by repeat split.
Qed.

(** ** Construction and the command line *)

Lemma main_rejects lib a w :
  in_range (arg_quality a) = false →
  main lib a w = (Ok 1, {| fs := fs w; trace := trace w ++ [quality_error] |}).
Proof. unfold in_range, main. by intros ->. Qed.

Lemma main_accepts lib a w :
  in_range (arg_quality a) = true →
  main lib a w =
  try_except
    (let! st := convert_folder lib
                  {| quality := arg_quality a; verbose := arg_verbose a |}
                  (input_folder a) (output a) in
     if Nat.eqb (failed st) 0 then ret 0
     else if (0 <? converted st)%nat then ret 1
     else ret 2)
    (λ e, emit (EvPrint ("Error: " +:+ exc_str e)) ;;; ret 3) w.
Proof. unfold in_range, main. by intros ->. Qed.

(** C3, as amended.  The constructor stores the quality and the verbose
    flag exactly as given, for every value of either, and validates
    nothing.  The range check is made by [main]: a quality outside
    [1, 100] given on the command line ends the run with the error message
    before a converter is built and before the file system is touched. *)
Theorem quality_is_checked_by_main_only (lib : Collaborators) :
  (∀ q v, __init__ q v = Ok {| quality := q; verbose := v |}) ∧
  (∀ a w,
     ¬ (1 ≤ arg_quality a ≤ 100) →
     main lib a w =
       (Ok 1, {| fs := fs w; trace := trace w ++ [quality_error] |})).
Proof.
  split; [done|].
  intros a w Hq. apply main_rejects. unfold in_range.
  apply andb_false_iff. rewrite Z.leb_gt, Z.leb_gt. lia.
Qed.

Lemma quality_is_checked_by_main_only_witness :
  let a := {| input_folder := Sample.photos_arg; output := None;
              arg_quality := 101; arg_verbose := false |} in
  ¬ (1 ≤ arg_quality a ≤ 100) ∧
  main Sample.sample_lib a Sample.world0 =
    (Ok 1, {| fs := Sample.photos; trace := [quality_error] |}).
Proof.
  intros a.
  assert (H : ¬ (1 ≤ arg_quality a ≤ 100)) by (simpl; lia).
  split; [exact H|].
  exact (proj2 (quality_is_checked_by_main_only Sample.sample_lib)
           a Sample.world0 H).
Defined.

(** C3, the claim as stated fails: built through the library surface, a
    converter with quality 0 is accepted, and [convert_folder] goes on to
    open and save files with it. *)
Lemma library_construction_accepts_any_quality :
  let self := {| quality := 0; verbose := false |} in
  ¬ (1 ≤ 0 ≤ 100) ∧
  __init__ 0 false = Ok self ∧
  (∀ e, __init__ 0 false ≠ Raise e) ∧
  trace (convert_folder Sample.sample_lib self Sample.photos_arg None
           Sample.world0).2
    = [EvOpen ["photos"; "a.heic"]; EvSave ["photos"; "a.jpg"] true;
       EvOpen ["photos"; "b.heic"];
       EvSummary {| total := 3; converted := 2; failed := 1; skipped := 0 |}].
Proof.
  split; [lia|]. split; [reflexivity|]. split; [done|].
  vm_compute. reflexivity.
Qed.

(** C4, as amended.  The exit code of [main] is 1 when the quality is out
    of range (nothing is converted then: the tree is untouched and only the
    error message is printed); otherwise 3 when the input path does not
    exist or is not a directory; otherwise 0 when no file failed, which
    includes the case of no file found, 1 when some file failed and some
    was converted, and 2 when every file failed.  The code for a rejected
    quality is therefore not zero and differs from 0, 2 and 3, but it is
    the code of a partial success. *)
Theorem main_exit_codes (lib : Collaborators) (a : args) (w : world) :
  let self := {| quality := arg_quality a; verbose := arg_verbose a |} in
  let heic_files := find_heic_files (fs w) (input_folder a) in
  let os := outcomes (convert_single_file lib self) (input_folder a)
              (output a) heic_files w in
  (main lib a w).1 =
    Ok (if negb (in_range (arg_quality a)) then 1
        else if negb (path_exists (fs w) (input_folder a))
                || negb (is_dir (fs w) (input_folder a)) then 3
        else if Nat.eqb (count_failed os) 0 then 0
        else if (0 <? count_converted os)%nat then 1
        else 2) ∧
  (in_range (arg_quality a) = false →
   (main lib a w).2 = {| fs := fs w; trace := trace w ++ [quality_error] |}).
Proof.
  cbv zeta. split; [|by intros H; rewrite main_rejects].
  destruct (in_range (arg_quality a)) eqn:Hq; cbn [negb].
  2: by rewrite main_rejects.
  rewrite main_accepts by done.
  unfold try_except, bind at 1, convert_folder.
  rewrite convert_folder_with_unfold.
  destruct (path_exists (fs w) (input_folder a)); cbn [negb orb]; [|done].
  destruct (is_dir (fs w) (input_folder a)); cbn [negb orb]; [|done].
  cbv zeta.
  destruct (find_heic_files (fs w) (input_folder a)) as [|f rest] eqn:E;
    [done|].
  cbn [tally failed converted Nat.add].
  set (os := outcomes _ _ _ _ _).
  destruct (Nat.eqb (count_failed os) 0); [done|].
  by destruct (0 <? count_converted os)%nat.
Qed.

Lemma main_exit_codes_witness :
  let a := {| input_folder := Sample.photos_arg; output := None;
              arg_quality := 0; arg_verbose := true |} in
  in_range (arg_quality a) = false ∧
  (main Sample.sample_lib a Sample.world0).1 = Ok 1 ∧
  (main Sample.sample_lib a Sample.world0).2
    = {| fs := Sample.photos; trace := [quality_error] |}.
Proof.
  intros a.
  assert (H : in_range (arg_quality a) = false) by reflexivity.
  destruct (main_exit_codes Sample.sample_lib a Sample.world0) as [H1 H2].
  split; [exact H|]. split; [exact H1 | exact (H2 H)].
Defined.

(** C4, the claim as stated fails: a rejected quality and a partial
    success (two files converted, one failed) end with the same exit
    code. *)
Lemma rejected_quality_shares_exit_code :
  let rejected := {| input_folder := Sample.photos_arg; output := None;
                     arg_quality := 0; arg_verbose := false |} in
  let partial := {| input_folder := Sample.photos_arg; output := None;
                    arg_quality := 95; arg_verbose := false |} in
  in_range (arg_quality rejected) = false ∧
  (main Sample.sample_lib rejected Sample.world0).1 = Ok 1 ∧
  (convert_folder Sample.sample_lib Sample.converter95 Sample.photos_arg None
     Sample.world0).1
    = Ok {| total := 3; converted := 2; failed := 1; skipped := 0 |} ∧
  (main Sample.sample_lib partial Sample.world0).1 = Ok 1 ∧
  (main Sample.sample_lib rejected Sample.world0).1
    = (main Sample.sample_lib partial Sample.world0).1.
Proof. vm_compute. by repeat split. Qed.

(** ** Discovery *)

Section Discovery.

(** Induction on a tree, with the hypothesis for every entry of a
    directory. *)
Fixpoint node_induction (P : node → Prop)
    (HFile : ∀ data, P (File data))
    (HDir : ∀ es, Forall (λ e, P e.2) es → P (Dir es))
    (HSpecial : P Special) (t : node) : P t :=
  match t with
  | File data => HFile data
  | Dir es =>
      HDir es
        ((fix go (l : list (string * node)) : Forall (λ e, P e.2) l :=
            match l with
            | [] => List.Forall_nil _
            | (nm, c) :: r =>
                @List.Forall_cons _ (λ e, P e.2) (nm, c) r
                  (node_induction P HFile HDir HSpecial c) (go r)
            end) es)
  | Special => HSpecial
  end.

Lemma walk_dirs_Dir base es :
  walk_dirs base (Dir es) =
  (base, es) :: flat_map (λ e, walk_dirs (joinpath base e.1) e.2) es.
Proof.
  simpl. f_equal. induction es as [|[nm c] r IH]; simpl; [done|].
  by rewrite IH.
Qed.

Lemma below_snoc t rel es nm n :
  below t rel (Dir es) → In (nm, n) es → below t (rel ++ [nm]) n.
Proof.
  intros H Hin. remember (Dir es) as target eqn:E.
  induction H as [es0 nm0 c Hc | es0 nm0 c rel n0 Hc H IH]; subst.
  - simpl. eapply below_deeper; [exact Hc|]. by apply below_child.
  - simpl. eapply below_deeper; [exact Hc|]. by apply IH.
Qed.

Lemma below_last t rel n :
  below t rel n →
  ∃ rel' nm es,
    rel = rel' ++ [nm] ∧ In (nm, n) es ∧
    ((rel' = [] ∧ t = Dir es) ∨ below t rel' (Dir es)).
Proof.
  induction 1 as [es nm c Hc | es nm c rel n Hc H IH].
  - exists [], nm, es. by eauto.
  - destruct IH as (rel' & nm' & es' & -> & Hin & Hcase).
    exists (nm :: rel'), nm', es'. split; [done|]. split; [done|]. right.
    destruct Hcase as [[-> ->] | Hb].
    + by apply below_child.
    + by eapply below_deeper.
Qed.

(** The directories [rglob] visits are the folder itself and every
    directory below it. *)
Lemma walk_dirs_spec t :
  ∀ base d es,
    In (d, es) (walk_dirs base t) ↔
    (d = base ∧ t = Dir es) ∨ ∃ rel, below t rel (Dir es) ∧ d = base ++ rel.
Proof.
  induction t as [data | es0 IH | ] using node_induction; intros base d es.
  - simpl. split; [done|]. intros [[_ [=]] | (rel & H & _)]. inversion H.
  - rewrite walk_dirs_Dir. cbn [In]. rewrite in_flat_map. split.
    + intros [[= <- <-] | ([nm c] & Hin & Hw)]; [by left|]. right.
      rewrite List.Forall_forall in IH.
      apply (IH (nm, c) Hin) in Hw. cbn [fst snd] in Hw.
      destruct Hw as [[-> ->] | (rel & Hb & ->)].
      * exists [nm]. split; [by apply below_child | done].
      * exists (nm :: rel). split; [by eapply below_deeper|].
        unfold joinpath. by rewrite <- app_assoc.
    + intros [[-> [= ->]] | (rel & Hb & ->)]; [by left|]. right.
      rewrite List.Forall_forall in IH.
      inversion Hb as [es1 nm c Hc | es1 nm c rel' n Hc Hb']; subst.
      * exists (nm, Dir es). split; [done|].
        apply (IH (nm, Dir es) Hc). by left.
      * exists (nm, c). split; [done|].
        apply (IH (nm, c) Hc). right. exists rel'. split; [done|].
        unfold joinpath. cbn [fst]. by rewrite <- app_assoc.
  - simpl. split; [done|]. intros [[_ [=]] | (rel & H & _)]. inversion H.
Qed.

(** [rglob('*')] yields exactly the entries below the folder, at any
    depth. *)
Lemma rglob_spec t folder_path p n :
  In (p, n) (rglob t folder_path) ↔
  ∃ root rel,
    lookup_path t folder_path = Some root ∧ below root rel n ∧
    p = folder_path ++ rel.
Proof.
  unfold rglob. destruct (lookup_path t folder_path) as [root|];
    [|split; [done | by intros (? & ? & [=] & _)]].
  rewrite in_flat_map. split.
  - intros ([d es] & Hw & Hc). exists root.
    unfold children in Hc. apply in_map_iff in Hc.
    destruct Hc as ([nm c] & [= <- <-] & Hin). cbn [fst snd] in *.
    apply walk_dirs_spec in Hw.
    destruct Hw as [[-> ->] | (rel & Hb & ->)].
    + exists [nm]. split; [done|]. split; [by apply below_child | done].
    + exists (rel ++ [nm]). split; [done|].
      split; [by eapply below_snoc|]. unfold joinpath. by rewrite app_assoc.
  - intros (root' & rel & [= <-] & Hb & ->).
    destruct (below_last _ _ _ Hb) as (rel' & nm & es & -> & Hin & Hcase).
    exists (folder_path ++ rel', es). split.
    + apply walk_dirs_spec. destruct Hcase as [[-> ->] | Hb'].
      * left. by rewrite app_nil_r.
      * right. by exists rel'.
    + unfold children. apply in_map_iff. exists (nm, n).
      split; [|done]. unfold joinpath. cbn [fst snd]. by rewrite app_assoc.
Qed.

(** Discovery returns exactly the regular files, at any depth below the
    folder, whose suffix is one of the four listed spellings. *)
Lemma find_heic_files_exact t folder_path p :
  In p (find_heic_files t folder_path) ↔
  ∃ root rel data,
    lookup_path t folder_path = Some root ∧
    below root rel (File data) ∧
    p = folder_path ++ rel ∧
    suffix p ∈ heic_extensions.
Proof.
  unfold find_heic_files. rewrite in_map_iff. split.
  - intros ([p' n] & <- & Hf). apply filter_In in Hf.
    destruct Hf as [Hr Hh]. apply rglob_spec in Hr.
    destruct Hr as (root & rel & Hl & Hb & ->).
    unfold is_heic_entry in Hh. apply andb_prop in Hh. destruct Hh as [Hn Hs].
    destruct n as [data| |]; try done. cbn [fst snd] in *.
    exists root, rel, data. by apply bool_decide_eq_true in Hs.
  - intros (root & rel & data & Hl & Hb & -> & Hs).
    exists (folder_path ++ rel, File data). split; [done|].
    apply filter_In. split.
    + apply rglob_spec. by exists root, rel.
    + unfold is_heic_entry. cbn [fst snd is_file_node andb].
      by apply bool_decide_eq_true.
Qed.

End Discovery.

(** C1 (the code departs from the claim).  Discovery recurses into every
    subdirectory and returns exactly the regular files whose suffix is one
    of the four spellings [.heic], [.heif], [.HEIC], [.HEIF]; files with
    any other suffix are left out.  The comparison is not case-insensitive:
    a regular file named [IMG_0001.Heic], whose lowercased suffix is
    [.heic], is not discovered. *)
Theorem mixed_case_suffix_is_not_discovered :
  (∀ t folder_path p,
     In p (find_heic_files t folder_path) ↔
     ∃ root rel data,
       lookup_path t folder_path = Some root ∧
       below root rel (File data) ∧
       p = folder_path ++ rel ∧
       suffix p ∈ ({[ ".heic"; ".heif"; ".HEIC"; ".HEIF" ]} : gset string)) ∧
  (let album := Dir [("album", Dir [("IMG_0001.Heic", File [Sample.x01]);
                                    ("IMG_0002.heic", File [Sample.x01])])] in
   let mixed := ["album"; "IMG_0001.Heic"] in
   lookup_path album mixed = Some (File [Sample.x01]) ∧
   suffix mixed = ".Heic" ∧
   lower (suffix mixed) = ".heic" ∧
   find_heic_files album ["album"] = [["album"; "IMG_0002.heic"]] ∧
   ¬ In mixed (find_heic_files album ["album"])).
Proof.
  split; [apply find_heic_files_exact|].
  vm_compute. repeat split. intros [H|[]]. discriminate H.
Qed.

(** * Further properties *)

(** ** The tree under [mkdir] and under a write *)

Section TreeFrame.

Lemma entry_set_entry_ne n nm c es :
  n ≠ nm → entry n (set_entry nm c es) = entry n es.
Proof.
  intros Hne. induction es as [|[n0 c0] r IH]; simpl.
  - destruct (String.eqb_spec nm n); [congruence | done].
  - destruct (String.eqb_spec n0 nm) as [->|Hn0]; simpl.
    + destruct (String.eqb_spec nm n); [congruence | done].
    + destruct (String.eqb_spec n0 n); [done | exact IH].
Qed.

Lemma persists_refl n : persists n n.
Proof. by destruct n. Qed.

Lemma persists_trans n1 n2 n3 :
  persists n1 n2 → persists n2 n3 → persists n1 n3.
Proof.
  destruct n1; simpl; intros H12 H23; subst; try done.
  destruct n2; simpl in *; try done.
Qed.

(** Looking up below a directory whose entry [c] was replaced. *)
Lemma lookup_path_set_entry es c child q :
  lookup_path (Dir (set_entry c child es)) q =
  match q with
  | [] => Some (Dir (set_entry c child es))
  | c0 :: q' =>
      if String.eqb c0 c then lookup_path child q'
      else lookup_path (Dir es) q
  end.
Proof.
  destruct q as [|c0 q']; [done|]. cbn [lookup_path].
  destruct (String.eqb_spec c0 c) as [->|Hne].
  - by rewrite entry_set_entry.
  - by rewrite entry_set_entry_ne.
Qed.

(** [mkdir(parents=True, exist_ok=True)] only adds directories. *)
Lemma mkdir_p_extends p : ∀ t t', mkdir_p t p = Ok t' → extends_tree t t'.
Proof.
  induction p as [|c p IH]; intros t t'.
  - simpl. destruct t; intros [= <-]. intros q n Hq. exists n.
    split; [done | apply persists_refl].
  - cbn [mkdir_p]. destruct t as [|es|]; try done.
    destruct (entry c es) as [child|] eqn:E.
    + destruct (mkdir_p child p) as [child'|] eqn:Hm; intros [= <-].
      intros q n Hq. rewrite lookup_path_set_entry.
      destruct q as [|c0 q']; [injection Hq as <-; by eexists|].
      destruct (String.eqb_spec c0 c) as [->|Hne].
      * cbn [lookup_path] in Hq. rewrite E in Hq. by apply (IH child).
      * exists n. split; [done | apply persists_refl].
    + intros [= <-]. intros q n Hq. rewrite lookup_path_set_entry.
      destruct q as [|c0 q']; [injection Hq as <-; by eexists|].
      destruct (String.eqb_spec c0 c) as [->|Hne].
      * cbn [lookup_path] in Hq. by rewrite E in Hq.
      * exists n. split; [done | apply persists_refl].
Qed.

(** A write touches the written path only. *)
Lemma write_file_extends p data :
  ∀ t t', write_file t p data = Ok t' → extends_except p t t'.
Proof.
  induction p as [|c p IH]; intros t t'; [done|].
  destruct p as [|c' p'].
  - simpl. destruct t as [|es|]; try done.
    intros Hw q n Hne Hq.
    assert (Ht' : t' = Dir (set_entry c (File data) es) ∧
                  ∀ es0, entry c es ≠ Some (Dir es0)).
    { destruct (entry c es) as [[| es1 |]|]; try discriminate Hw;
        injection Hw as <-; (split; [reflexivity | intros es0; congruence]). }
    destruct Ht' as [-> Hnd]. rewrite lookup_path_set_entry.
    destruct q as [|c0 q']; [injection Hq as <-; by eexists|].
    destruct (String.eqb_spec c0 c) as [->|Hc].
    + cbn [lookup_path] in Hq.
      destruct (entry c es) as [[d0 | es0 |]|] eqn:E; try done;
        destruct q'; [congruence | done | congruence | done].
    + exists n. split; [done | apply persists_refl].
  - destruct t as [|es|]; try done. rewrite write_file_below.
    destruct (entry c es) as [child|] eqn:E; [|done].
    destruct (write_file child (c' :: p') data) as [child'|] eqn:W; [|done].
    intros [= <-] q n Hne Hq. rewrite lookup_path_set_entry.
    destruct q as [|c0 q']; [injection Hq as <-; by eexists|].
    destruct (String.eqb_spec c0 c) as [->|Hc].
    + cbn [lookup_path] in Hq. rewrite E in Hq.
      apply (IH _ _ W); [congruence | done].
    + exists n. split; [done | apply persists_refl].
Qed.

(** A chain of fresh directories holds directories only, along the
    chain. *)
Lemma fresh_dirs_lookup p :
  ∀ q n, lookup_path (fresh_dirs p) q = Some n →
         q `prefix_of` p ∧ is_dir_node n = true.
Proof.
  induction p as [|c p IH]; intros q n.
  - destruct q as [|c0 q]; simpl; [|done].
    intros [= <-]. split; [apply prefix_nil | done].
  - destruct q as [|c0 q]; simpl.
    + intros [= <-]. split; [apply prefix_nil | done].
    + destruct (String.eqb_spec c c0) as [->|Hne]; [|done].
      intros H. apply IH in H as [Hp Hd].
      split; [by apply prefix_cons | done].
Qed.

(** What [mkdir(parents=True, exist_ok=True)] adds: directories, each of
    them the folder itself or a parent of it. *)
Lemma mkdir_p_adds d :
  ∀ t t', mkdir_p t d = Ok t' →
  ∀ q, path_exists t' q = true → path_exists t q = false →
       q `prefix_of` d ∧ is_dir t' q = true.
Proof.
  induction d as [|c d IH]; intros t t'.
  - simpl. destruct t; intros [= <-] q H1 H2; congruence.
  - cbn [mkdir_p]. destruct t as [|es|]; try done.
    destruct (entry c es) as [child|] eqn:E.
    + destruct (mkdir_p child d) as [child'|] eqn:Hm; intros [= <-] q.
      unfold path_exists, is_dir. rewrite lookup_path_set_entry.
      destruct q as [|c0 q']; [done|].
      destruct (String.eqb_spec c0 c) as [->|Hne].
      * cbn [lookup_path]. rewrite E. intros H1 H2.
        destruct (IH _ _ Hm q' H1 H2) as [Hp Hd].
        split; [by apply prefix_cons | done].
      * intros H1 H2. congruence.
    + intros [= <-] q. unfold path_exists, is_dir.
      rewrite lookup_path_set_entry.
      destruct q as [|c0 q']; [done|].
      destruct (String.eqb_spec c0 c) as [->|Hne].
      * intros H1 _.
        destruct (lookup_path (fresh_dirs d) q') as [n|] eqn:L; [|done].
        apply fresh_dirs_lookup in L as [Hp Hd].
        split; [by apply prefix_cons | done].
      * intros H1 H2. congruence.
Qed.

(** After a write the path holds a regular file with the data written. *)
Lemma write_file_lookup p data :
  ∀ t t', write_file t p data = Ok t' → lookup_path t' p = Some (File data).
Proof.
  induction p as [|c p IH]; intros t t'; [done|].
  destruct p as [|c' p'].
  - simpl. destruct t as [|es|]; try done.
    destruct (entry c es) as [[| |]|]; intros [= <-];
      by rewrite entry_set_entry.
  - destruct t as [|es|]; try done. rewrite write_file_below.
    destruct (entry c es) as [child|]; [|done].
    destruct (write_file child (c' :: p') data) as [child'|] eqn:W; [|done].
    intros [= <-]. cbn [lookup_path]. rewrite entry_set_entry.
    apply (IH _ _ W).
Qed.

(** A write adds no path but the one written. *)
Lemma write_file_adds p data :
  ∀ t t', write_file t p data = Ok t' →
  ∀ q, q ≠ p → path_exists t' q = true → path_exists t q = true.
Proof.
  unfold path_exists.
  induction p as [|c p IH]; intros t t'; [done|].
  destruct p as [|c' p'].
  - simpl. destruct t as [|es|]; try done.
    intros Hw q Hne.
    assert (Ht' : t' = Dir (set_entry c (File data) es)).
    { destruct (entry c es) as [[| es1 |]|]; try discriminate Hw;
        by injection Hw as <-. }
    subst t'. rewrite lookup_path_set_entry.
    destruct q as [|c0 q']; [done|].
    destruct (String.eqb_spec c0 c) as [->|Hc]; [|done].
    destruct q'; [congruence | done].
  - destruct t as [|es|]; try done. rewrite write_file_below.
    destruct (entry c es) as [child|] eqn:E; [|done].
    destruct (write_file child (c' :: p') data) as [child'|] eqn:W; [|done].
    intros [= <-] q Hne. rewrite lookup_path_set_entry.
    destruct q as [|c0 q']; [done|].
    destruct (String.eqb_spec c0 c) as [->|Hc]; [|done].
    cbn [lookup_path]. rewrite E.
    apply (IH _ _ W). congruence.
Qed.

End TreeFrame.

(** ** What single-file conversion leaves in place *)

#[local] Instance grows_except_preorder p : PreOrder (grows_except p).
Proof.
  split.
  - intros w q n _ Hq. exists n. split; [done | apply persists_refl].
  - intros w1 w2 w3 H12 H23 q n Hne Hq.
    destruct (H12 q n Hne Hq) as (n2 & Hq2 & P2).
    destruct (H23 q n2 Hne Hq2) as (n3 & Hq3 & P3).
    exists n3. split; [done | by eapply persists_trans].
Qed.

#[local] Instance grows_preorder : PreOrder grows.
Proof.
  split.
  - intros w q n Hq. exists n. split; [done | apply persists_refl].
  - intros w1 w2 w3 H12 H23 q n Hq.
    destruct (H12 q n Hq) as (n2 & Hq2 & P2).
    destruct (H23 q n2 Hq2) as (n3 & Hq3 & P3).
    exists n3. split; [done | by eapply persists_trans].
Qed.

Lemma steps_weaken {A} (R R' : relation world) (m : M world A) :
  (∀ w w', R w w' → R' w w') → steps R m → steps R' m.
Proof. intros H Hm w. apply H, Hm. Qed.

Lemma same_fs_grows w w' : same_fs w w' → grows w w'.
Proof.
  unfold same_fs, grows. intros -> q n Hq. exists n.
  split; [done | apply persists_refl].
Qed.

Lemma grows_grows_except p w w' : grows w w' → grows_except p w w'.
Proof. intros H q n _. apply H. Qed.

(** What [extends_tree] means for files, paths and directories. *)
Lemma extends_tree_keeps t t' :
  extends_tree t t' →
  (∀ q data, lookup_path t q = Some (File data) →
             lookup_path t' q = Some (File data)) ∧
  (∀ q, path_exists t q = true → path_exists t' q = true) ∧
  (∀ q, is_dir t q = true → is_dir t' q = true).
Proof.
  intros H. split; [|split].
  - intros q data Hq. destruct (H q _ Hq) as (n' & Hq' & P).
    simpl in P. by subst.
  - intros q. unfold path_exists.
    destruct (lookup_path t q) as [n|] eqn:Hq; [|done].
    destruct (H q n Hq) as (n' & -> & _). done.
  - intros q. unfold is_dir.
    destruct (lookup_path t q) as [n|] eqn:Hq; [|done].
    destruct (H q n Hq) as (n' & -> & P).
    destruct n; simpl in *; done.
Qed.

Section SingleFileFrame.

Variable lib : Collaborators.
Variable self : HEICToJPGConverter.

Lemma mkdir_grows d : steps grows (mkdir d).
Proof.
  intros w. unfold mkdir, bind, emit, modify, get, lift_res, set_fs. simpl.
  destruct (mkdir_p (fs w) d) as [t|e] eqn:Hm; simpl.
  - by apply mkdir_p_extends in Hm.
  - by apply same_fs_grows.
Qed.

Lemma Image_save_grows_except img p kw :
  steps (grows_except p) (Image_save lib img p kw).
Proof.
  intros w. unfold Image_save, bind, get.
  destruct (jpeg_encode lib img kw) as [data|];
    [|by apply grows_grows_except, same_fs_grows].
  destruct (write_file (fs w) p data) as [t|e] eqn:W;
    [|by apply grows_grows_except, same_fs_grows].
  simpl. by apply write_file_extends in W.
Qed.

Lemma open_rgb_same_fs p : steps same_fs (open_rgb lib p).
Proof. unfold open_rgb. steps_walk ltac:(apply Image_open_same_fs). Qed.

Lemma verify_if_verbose_same_fs p q :
  steps same_fs (verify_if_verbose lib self p q).
Proof. unfold verify_if_verbose. steps_walk ltac:(apply verify_same_fs). Qed.

(** Apart from the output path, a call leaves every entry in place. *)
Lemma convert_single_file_grows_except source_path output_folder :
  steps (grows_except (output_path_of source_path output_folder))
        (convert_single_file lib self source_path output_folder).
Proof.
  unfold convert_single_file, convert_single_file_body, make_output_folder.
  steps_walk ltac:(first
    [ apply (steps_weaken grows);
        [apply grows_grows_except | apply mkdir_grows]
    | apply Image_save_grows_except
    | apply (steps_weaken same_fs);
        [intros ? ? ?; by apply grows_grows_except, same_fs_grows|];
        first [apply open_rgb_same_fs | apply verify_if_verbose_same_fs] ]).
Qed.

(** The folder step either succeeds or fails on a tree in which the
    output is missing, and leaves that tree alone. *)
Lemma make_output_folder_raises source_path output_folder e w w0 :
  make_output_folder output_folder w = (Raise e, w0) →
  fs w0 = fs w ∧
  path_exists (fs w) (output_path_of source_path output_folder) = false.
Proof.
  unfold make_output_folder. destruct output_folder as [d|]; [|done].
  unfold mkdir, bind, emit, modify, get, lift_res, set_fs. simpl.
  destruct (mkdir_p (fs w) d) as [t|e'] eqn:Hm; [done|].
  intros [= <- <-]. split; [done|].
  unfold path_exists.
  destruct (lookup_path (fs w) (joinpath d (stem source_path +:+ ".jpg")))
    as [n|] eqn:L; [|done].
  destruct (lookup_path_child_dir _ _ _ _ L) as [es Hd].
  by rewrite (mkdir_p_existing _ _ _ Hd) in Hm.
Qed.

Lemma skip_after_folder source_path output_folder w w0 :
  make_output_folder output_folder w = (Ok tt, w0) →
  path_exists (fs w0) (output_path_of source_path output_folder) = true →
  convert_single_file lib self source_path output_folder w = (Ok true, w0).
Proof.
  intros H Hex. unfold convert_single_file, convert_single_file_body.
  apply try_except_Ok. rewrite (bind_Ok _ _ _ _ _ H).
  unfold bind, get. by rewrite Hex.
Qed.

Lemma saved_world source_path output_folder img w w0 w1 w2 :
  let output_path := output_path_of source_path output_folder in
  make_output_folder output_folder w = (Ok tt, w0) →
  path_exists (fs w0) output_path = false →
  open_rgb lib source_path w0 = (Ok img, w1) →
  Image_save lib img output_path
    (save_kwargs lib self (preserve_metadata img output_path)) w1
    = (Ok tt, w2) →
  ∃ w3, convert_single_file lib self source_path output_folder w
          = (Ok true, w3) ∧ fs w3 = fs w2.
Proof.
  intros output_path H Hex Ho Hs.
  destruct (verify_if_verbose_returns lib self source_path output_path w2)
    as [w3 Hv].
  exists w3. split.
  - unfold convert_single_file. apply try_except_Ok.
    rewrite (body_after_folder _ _ _ _ _ _ H Hex), (bind_Ok _ _ _ _ _ Ho).
    fold output_path.
    rewrite (bind_Ok _ _ _ _ _ Hs). by rewrite (bind_Ok _ _ _ _ _ Hv).
  - pose proof (verify_if_verbose_same_fs source_path output_path w2) as Hsame.
    rewrite Hv in Hsame. exact Hsame.
Qed.

(** The return value tells whether the output is there after the call. *)
Lemma convert_single_file_result source_path output_folder w r w' :
  convert_single_file lib self source_path output_folder w = (r, w') →
  (r = Ok true ∧
   path_exists (fs w') (output_path_of source_path output_folder) = true) ∨
  (r = Ok false ∧
   path_exists (fs w') (output_path_of source_path output_folder) = false).
Proof.
  set (outp := output_path_of source_path output_folder).
  destruct (make_output_folder output_folder w) as [[[]|e] w0] eqn:Hf.
  - destruct (path_exists (fs w0) outp) eqn:Hex.
    + rewrite (skip_after_folder _ _ _ _ Hf Hex). intros [= <- <-]. by left.
    + destruct (open_rgb lib source_path w0) as [[img|e] w1] eqn:Ho.
      * pose proof (open_rgb_same_fs source_path w0) as Hs1.
        rewrite Ho in Hs1. unfold same_fs in Hs1. simpl in Hs1.
        pose proof (Image_save_spec lib img outp
          (save_kwargs lib self (preserve_metadata img outp)) w1) as Hs.
        destruct (Image_save lib img outp _ w1) as [[[]|e] w2] eqn:Hsave;
          destruct Hs as [_ Hfs].
        -- destruct (saved_world _ _ _ _ _ _ _ Hf Hex Ho Hsave)
             as (w3 & -> & Hfs3).
           intros [= <- <-]. left. by rewrite Hfs3.
        -- rewrite (save_error_gives_false _ _ _ _ _ _ _ _ _ _ Hf Hex Ho Hsave).
           intros [= <- <-]. right. by rewrite Hfs, Hs1.
      * pose proof (open_rgb_same_fs source_path w0) as Hs1.
        rewrite Ho in Hs1. unfold same_fs in Hs1. simpl in Hs1.
        rewrite (open_error_gives_false _ _ _ _ _ _ _ _ Hf Hex Ho).
        intros [= <- <-]. right. by rewrite Hs1.
  - rewrite (folder_error_gives_false _ _ _ _ _ _ _ Hf).
    intros [= <- <-]. right.
    destruct (make_output_folder_raises source_path _ _ _ _ Hf) as [-> Hn].
    done.
Qed.

(** What the folder step adds: directories leading to the output
    folder. *)
Lemma make_output_folder_adds output_folder w w0 :
  make_output_folder output_folder w = (Ok tt, w0) →
  ∀ q, path_exists (fs w0) q = true → path_exists (fs w) q = false →
       ∃ d, output_folder = Some d ∧ q `prefix_of` d ∧
            is_dir (fs w0) q = true.
Proof.
  unfold make_output_folder. destruct output_folder as [d|].
  - unfold mkdir, bind, emit, modify, get, lift_res, set_fs. simpl.
    destruct (mkdir_p (fs w) d) as [t|e] eqn:Hm; [|done].
    intros [= <-] q H1 H2. simpl in *. exists d. split; [done|].
    by apply (mkdir_p_adds _ _ _ Hm).
  - intros [= <-] q H1 H2. congruence.
Qed.

Lemma Image_save_written img p kw w w' :
  Image_save lib img p kw w = (Ok tt, w') →
  ∃ data, write_file (fs w) p data = Ok (fs w').
Proof.
  unfold Image_save, bind, get.
  destruct (jpeg_encode lib img kw) as [data|]; [|done].
  destruct (write_file (fs w) p data) as [t|e] eqn:W; [|done].
  simpl. intros [= <-]. by exists data.
Qed.

(** What a call adds to the tree: the output file, and the directories
    leading to the output folder. *)
Lemma convert_single_file_adds source_path output_folder w q :
  let w' := (convert_single_file lib self source_path output_folder w).2 in
  path_exists (fs w') q = true → path_exists (fs w) q = false →
  (q = output_path_of source_path output_folder ∧
   ∃ data, lookup_path (fs w') q = Some (File data)) ∨
  (∃ d, output_folder = Some d ∧ q `prefix_of` d ∧ is_dir (fs w') q = true).
Proof.
  set (outp := output_path_of source_path output_folder). cbv zeta.
  destruct (make_output_folder output_folder w) as [[[]|e] w0] eqn:Hf.
  - pose proof (make_output_folder_adds _ _ _ Hf q) as Hadd.
    destruct (path_exists (fs w0) outp) eqn:Hex.
    { rewrite (skip_after_folder _ _ _ _ Hf Hex). cbn [snd]. auto. }
    destruct (open_rgb lib source_path w0) as [[img|e] w1] eqn:Ho.
    + pose proof (open_rgb_same_fs source_path w0) as Hs1.
      rewrite Ho in Hs1. unfold same_fs in Hs1. cbn [snd] in Hs1.
      pose proof (Image_save_spec lib img outp
        (save_kwargs lib self (preserve_metadata img outp)) w1) as Hs.
      destruct (Image_save lib img outp _ w1) as [[[]|e] w2] eqn:Hsave;
        destruct Hs as [_ Hfs].
      * destruct (saved_world _ _ _ _ _ _ _ Hf Hex Ho Hsave)
          as (w3 & -> & Hfs3).
        cbn [snd]. rewrite Hfs3.
        destruct (Image_save_written _ _ _ _ _ Hsave) as [data Hw].
        rewrite Hs1 in Hw.
        destruct (decide (q = outp)) as [->|Hne].
        { intros _ _. left. split; [done|]. exists data.
          by apply (write_file_lookup _ _ _ _ Hw). }
        intros H1 H2. right.
        pose proof (write_file_adds _ _ _ _ Hw q Hne H1) as H0.
        destruct (Hadd H0 H2) as (d & Hd & Hp & Hdir).
        exists d. split; [done|]. split; [done|].
        unfold is_dir in *.
        destruct (lookup_path (fs w0) q) as [n|] eqn:Hq; [|done].
        destruct (write_file_extends _ _ _ _ Hw q n Hne Hq) as (n' & -> & P).
        by destruct n.
      * rewrite (save_error_gives_false _ _ _ _ _ _ _ _ _ _ Hf Hex Ho Hsave).
        cbn [snd]. rewrite Hfs, Hs1. auto.
    + pose proof (open_rgb_same_fs source_path w0) as Hs1.
      rewrite Ho in Hs1. unfold same_fs in Hs1. cbn [snd] in Hs1.
      rewrite (open_error_gives_false _ _ _ _ _ _ _ _ Hf Hex Ho).
      cbn [snd]. rewrite Hs1. auto.
  - rewrite (folder_error_gives_false _ _ _ _ _ _ _ Hf). cbn [snd].
    destruct (make_output_folder_raises source_path _ _ _ _ Hf) as [-> _].
    congruence.
Qed.

End SingleFileFrame.

Section SingleFileGuarantees.

Variable lib : Collaborators.
Variable self : HEICToJPGConverter.

Lemma convert_single_file_grows source_path output_folder :
  steps grows (convert_single_file lib self source_path output_folder).
Proof.
  intros w q n Hq.
  destruct (decide (q = output_path_of source_path output_folder)) as [->|Hne].
  - assert (Hex : path_exists (fs w)
                    (output_path_of source_path output_folder) = true)
      by (unfold path_exists; by rewrite Hq).
    rewrite (convert_single_file_skip _ _ _ _ _ Hex). simpl.
    exists n. split; [done | apply persists_refl].
  - by apply (convert_single_file_grows_except lib self source_path
                output_folder w q n).
Qed.

End SingleFileGuarantees.

(** X1.  The value [convert_single_file] returns tells whether the output
    path exists once the call is over: true exactly when it does, false
    exactly when it does not. *)
Theorem convert_single_file_reports_output
    (lib : Collaborators) (self : HEICToJPGConverter)
    (source_path : path) (output_folder : option path)
    (w w' : world) (r : res bool) :
  convert_single_file lib self source_path output_folder w = (r, w') →
  let output_path := output_path_of source_path output_folder in
  (r = Ok true ↔ path_exists (fs w') output_path = true) ∧
  (r = Ok false ↔ path_exists (fs w') output_path = false).
Proof.
  intros H output_path.
  destruct (convert_single_file_result _ _ _ _ _ _ _ H) as [[-> Hex]|[-> Hex]];
    fold output_path in Hex; rewrite Hex; split; split; congruence.
Qed.

Lemma convert_single_file_reports_output_witness :
  let csf := convert_single_file Sample.sample_lib Sample.converter95 in
  let a := ["photos"; "a.heic"] in
  let b := ["photos"; "b.heic"] in
  (csf a None Sample.world0 = (Ok true, (csf a None Sample.world0).2) ∧
   path_exists (fs (csf a None Sample.world0).2) ["photos"; "a.jpg"] = true) ∧
  (csf b None Sample.world0 = (Ok false, (csf b None Sample.world0).2) ∧
   path_exists (fs (csf b None Sample.world0).2) ["photos"; "b.jpg"] = false).
Proof.
  intros csf a b.
  assert (Ha : csf a None Sample.world0 = (Ok true, (csf a None Sample.world0).2))
    by (apply run_result; vm_compute; reflexivity).
  assert (Hb : csf b None Sample.world0 = (Ok false, (csf b None Sample.world0).2))
    by (apply run_result; vm_compute; reflexivity).
  split.
  - split; [exact Ha|].
    by apply (convert_single_file_reports_output _ _ _ _ _ _ _ Ha).
  - split; [exact Hb|].
    by apply (convert_single_file_reports_output _ _ _ _ _ _ _ Hb).
Defined.

(** X2.  [convert_single_file] never removes or changes what is already
    there: every regular file keeps its content, every existing path still
    exists and every directory is still a directory, whatever the call
    returns.  All it can add is the output file, a regular file, and the
    output folder with the parents it lacked, all of them directories. *)
Theorem convert_single_file_keeps_existing_files
    (lib : Collaborators) (self : HEICToJPGConverter)
    (source_path : path) (output_folder : option path) (w : world) :
  let w' := (convert_single_file lib self source_path output_folder w).2 in
  (∀ q data, lookup_path (fs w) q = Some (File data) →
             lookup_path (fs w') q = Some (File data)) ∧
  (∀ q, path_exists (fs w) q = true → path_exists (fs w') q = true) ∧
  (∀ q, is_dir (fs w) q = true → is_dir (fs w') q = true) ∧
  (∀ q, path_exists (fs w') q = true → path_exists (fs w) q = false →
        (q = output_path_of source_path output_folder ∧
         ∃ data, lookup_path (fs w') q = Some (File data)) ∨
        (∃ d, output_folder = Some d ∧ q `prefix_of` d ∧
              is_dir (fs w') q = true)).
Proof.
  cbv zeta.
  destruct (extends_tree_keeps _ _
              (convert_single_file_grows lib self source_path output_folder w))
    as (H1 & H2 & H3).
  split; [exact H1|]. split; [exact H2|]. split; [exact H3|].
  intros q. apply convert_single_file_adds.
Qed.

Lemma convert_single_file_keeps_existing_files_witness :
  let w' := (convert_single_file Sample.sample_lib Sample.converter95
               ["photos"; "a.heic"] (Some ["out"; "deep"]) Sample.world0).2 in
  (lookup_path Sample.photos ["photos"; "a.heic"] = Some (File [Sample.x01]) ∧
   lookup_path (fs w') ["photos"; "a.heic"] = Some (File [Sample.x01])) ∧
  (path_exists Sample.photos ["photos"; "c.jpg"] = true ∧
   path_exists (fs w') ["photos"; "c.jpg"] = true) ∧
  (is_dir Sample.photos ["photos"] = true ∧ is_dir (fs w') ["photos"] = true) ∧
  (path_exists (fs w') ["out"] = true ∧
   path_exists Sample.photos ["out"] = false ∧
   ((["out"] = ["out"; "deep"; "a.jpg"] ∧
     ∃ data, lookup_path (fs w') ["out"] = Some (File data)) ∨
    (∃ d, Some ["out"; "deep"] = Some d ∧ ["out"] `prefix_of` d ∧
          is_dir (fs w') ["out"] = true))) ∧
  lookup_path (fs w') ["out"; "deep"; "a.jpg"] = Some (File [Sample.x01]).
Proof.
  intros w'.
  destruct (convert_single_file_keeps_existing_files Sample.sample_lib
              Sample.converter95 ["photos"; "a.heic"] (Some ["out"; "deep"])
              Sample.world0) as (H1 & H2 & H3 & H4).
  split; [|split; [|split; [|split]]].
  - assert (E : lookup_path Sample.photos ["photos"; "a.heic"]
                = Some (File [Sample.x01])) by reflexivity.
    split; [exact E | exact (H1 _ _ E)].
  - assert (E : path_exists Sample.photos ["photos"; "c.jpg"] = true)
      by reflexivity.
    split; [exact E | exact (H2 _ E)].
  - assert (E : is_dir Sample.photos ["photos"] = true) by reflexivity.
    split; [exact E | exact (H3 _ E)].
  - assert (E1 : path_exists (fs w') ["out"] = true)
      by (vm_compute; reflexivity).
    assert (E2 : path_exists Sample.photos ["out"] = false) by reflexivity.
    split; [exact E1|]. split; [exact E2|]. exact (H4 _ E1 E2).
  - vm_compute. reflexivity.
Defined.

(** X3.  Sources that share the stem and the destination folder share the
    output path, and the name is not guarded: once one of them has been
    converted, converting the other returns true without opening or saving
    anything. *)
Theorem same_stem_is_skipped
    (lib : Collaborators) (self : HEICToJPGConverter)
    (first second : path) (output_folder : option path) (w w1 : world) :
  convert_single_file lib self first output_folder w = (Ok true, w1) →
  stem second = stem first →
  (output_folder = None → parent second = parent first) →
  output_path_of second output_folder = output_path_of first output_folder ∧
  convert_single_file lib self second output_folder w1 =
    (Ok true, {| fs := fs w1; trace := trace w1 ++ mkdir_event output_folder |}).
Proof.
  intros H Hstem Hparent.
  assert (Hsame : output_path_of second output_folder
                  = output_path_of first output_folder).
  { unfold output_path_of. rewrite Hstem.
    destruct output_folder; [done|]. by rewrite Hparent. }
  split; [exact Hsame|].
  apply convert_single_file_skip. rewrite Hsame.
  destruct (convert_single_file_result _ _ _ _ _ _ _ H) as [[_ Hex]|[[=] _]].
  exact Hex.
Qed.

Lemma same_stem_is_skipped_witness :
  let csf := convert_single_file Sample.sample_lib Sample.converter95 in
  let first := ["twins"; "a.heic"] in
  let second := ["twins"; "a.HEIF"] in
  let w1 := (csf first None MoreSamples.twins_world).2 in
  csf first None MoreSamples.twins_world = (Ok true, w1) ∧
  stem second = stem first ∧
  parent second = parent first ∧
  csf second None w1 = (Ok true, {| fs := fs w1; trace := trace w1 ++ [] |}) ∧
  lookup_path (fs w1) ["twins"; "a.jpg"] = Some (File [Sample.x01]).
Proof.
  intros csf first second w1.
  assert (H : csf first None MoreSamples.twins_world = (Ok true, w1))
    by (apply run_result; vm_compute; reflexivity).
  assert (Hs : stem second = stem first) by reflexivity.
  assert (Hp : parent second = parent first) by reflexivity.
  split; [exact H|]. split; [exact Hs|]. split; [exact Hp|].
  split; [|vm_compute; reflexivity].
  exact (proj2 (same_stem_is_skipped _ _ _ _ _ _ _ H Hs (λ _, Hp))).
Defined.

(** ** What a batch leaves in place *)

Section BatchGuarantees.

Variable lib : Collaborators.
Variable self : HEICToJPGConverter.
Variable input_path : path.
Variable output_path : option path.

Let single := convert_single_file lib self.

Lemma same_fs_emit_grows e : steps grows (emit e).
Proof.
  apply (steps_weaken same_fs); [apply same_fs_grows | apply same_fs_emit].
Qed.

Lemma attempt_grows f : steps grows (attempt single input_path output_path f).
Proof.
  unfold attempt. steps_walk ltac:(apply convert_single_file_grows).
Qed.

Lemma world_after_grows heic_files :
  ∀ w, grows w (world_after single input_path output_path heic_files w).
Proof.
  induction heic_files as [|f rest IH]; intros w; simpl; [reflexivity|].
  etrans; [apply attempt_grows | apply IH].
Qed.

Lemma count_failed_cons o os :
  count_failed (o :: os) =
  ((if is_converted o then 0 else 1) + count_failed os)%nat.
Proof. unfold count_failed. simpl. by destruct (is_converted o). Qed.

(** With no failure counted, the output of every file is in place when
    the loop ends. *)
Lemma all_converted_outputs_exist heic_files :
  ∀ w,
    count_failed (outcomes single input_path output_path heic_files w) = 0%nat →
    ∀ f, In f heic_files →
         ∃ folder,
           file_output_folder input_path output_path f = Ok folder ∧
           path_exists
             (fs (world_after single input_path output_path heic_files w))
             (output_path_of f folder) = true.
Proof.
  induction heic_files as [|f0 rest IH]; intros w Hc f Hin; [done|].
  cbn [outcomes world_after] in *. rewrite count_failed_cons in Hc.
  destruct (is_converted
              (outcome_of (attempt single input_path output_path f0 w).1))
    eqn:Hconv; [|lia].
  destruct Hin as [<-|Hin]; [|by apply IH].
  unfold attempt, bind, lift_res in *.
  destruct (file_output_folder input_path output_path f0) as [folder|e];
    [|done].
  exists folder. split; [done|].
  destruct (single f0 folder w) as [r w1] eqn:Hs. cbn [fst snd] in *.
  destruct (convert_single_file_result _ _ _ _ _ _ _ Hs) as [[-> Hex]|[-> _]];
    [|done].
  pose proof (world_after_grows rest w1) as Hg.
  by apply (extends_tree_keeps _ _ Hg).
Qed.

(** A discovered file lies below the input folder, so its relative path
    is always found. *)
Lemma relative_to_app base rel : relative_to (base ++ rel) base = Ok rel.
Proof.
  induction base as [|b base IH]; simpl; [by destruct rel|].
  by rewrite String.eqb_refl.
Qed.

Lemma attempt_never_raises f rel w :
  f = input_path ++ rel →
  outcome_of (attempt single input_path output_path f w).1 ≠ Raised.
Proof.
  intros ->. unfold attempt, file_output_folder, bind, lift_res.
  rewrite relative_to_app.
  destruct output_path as [out|].
  - destruct (convert_single_file_returns lib self (input_path ++ rel)
                (Some (out ++ parent rel)) w) as (b & w' & E).
    unfold single. rewrite E. by destruct b.
  - destruct (convert_single_file_returns lib self (input_path ++ rel)
                None w) as (b & w' & E).
    unfold single. rewrite E. by destruct b.
Qed.

Lemma outcomes_never_raised heic_files :
  Forall (λ f, ∃ rel, f = input_path ++ rel) heic_files →
  ∀ w, Forall (λ o, o ≠ Raised)
         (outcomes single input_path output_path heic_files w).
Proof.
  induction 1 as [|f rest [rel Hf] _ IH]; intros w; simpl; [done|].
  constructor; [by eapply attempt_never_raises | apply IH].
Qed.

End BatchGuarantees.

Lemma convert_folder_grows lib self (input_folder : folder_arg) output_path :
  steps grows (convert_folder lib self input_folder output_path).
Proof.
  intros w. unfold convert_folder. rewrite convert_folder_with_unfold.
  destruct (path_exists (fs w) input_folder); [|reflexivity].
  destruct (is_dir (fs w) input_folder); [|reflexivity]. cbn [negb]. cbv zeta.
  destruct (find_heic_files (fs w) input_folder) as [|f rest] eqn:E;
    [reflexivity|].
  rewrite <- E. apply (world_after_grows _ _ _ _ _ w).
Qed.

Lemma discovered_below_folder t folder_path p :
  In p (find_heic_files t folder_path) →
  ∃ rel, p = folder_path ++ rel ∧ rel ≠ [].
Proof.
  intros H. apply find_heic_files_exact in H.
  destruct H as (root & rel & data & _ & Hb & -> & _).
  exists rel. split; [done|].
  destruct (below_last _ _ _ Hb) as (rel' & nm & es & -> & _).
  by destruct rel'.
Qed.

Lemma main_grows lib a : steps grows (main lib a).
Proof.
  unfold main.
  steps_walk ltac:(first [apply convert_folder_grows | apply same_fs_emit_grows]).
Qed.

(** X4.  Neither [convert_folder] nor [main] removes or changes what is
    already in the tree: every regular file keeps its content (sources
    included), every existing path still exists and every directory is
    still a directory, whatever the result. *)
Theorem batch_keeps_existing_files
    (lib : Collaborators) (self : HEICToJPGConverter)
    (input_folder : folder_arg) (output_folder : option path)
    (a : args) (w : world) :
  (let w' := (convert_folder lib self input_folder output_folder w).2 in
   (∀ q data, lookup_path (fs w) q = Some (File data) →
              lookup_path (fs w') q = Some (File data)) ∧
   (∀ q, path_exists (fs w) q = true → path_exists (fs w') q = true) ∧
   (∀ q, is_dir (fs w) q = true → is_dir (fs w') q = true)) ∧
  (let w' := (main lib a w).2 in
   (∀ q data, lookup_path (fs w) q = Some (File data) →
              lookup_path (fs w') q = Some (File data)) ∧
   (∀ q, path_exists (fs w) q = true → path_exists (fs w') q = true) ∧
   (∀ q, is_dir (fs w) q = true → is_dir (fs w') q = true)).
Proof.
  split.
  - apply extends_tree_keeps, convert_folder_grows.
  - apply extends_tree_keeps, main_grows.
Qed.

Lemma batch_keeps_existing_files_witness :
  let a := {| input_folder := Sample.photos_arg; output := Some ["out"];
              arg_quality := 90; arg_verbose := true |} in
  let w1 := (convert_folder Sample.sample_lib Sample.converter95
               Sample.photos_arg None Sample.world0).2 in
  let w2 := (main Sample.sample_lib a Sample.world0).2 in
  lookup_path Sample.photos ["photos"; "b.heic"] = Some (File []) ∧
  lookup_path (fs w1) ["photos"; "b.heic"] = Some (File []) ∧
  lookup_path (fs w2) ["photos"; "b.heic"] = Some (File []) ∧
  path_exists Sample.photos ["photos"; "c.jpg"] = true ∧
  path_exists (fs w2) ["photos"; "c.jpg"] = true ∧
  is_dir Sample.photos ["photos"] = true ∧
  is_dir (fs w1) ["photos"] = true.
Proof.
  intros a w1 w2.
  destruct (batch_keeps_existing_files Sample.sample_lib Sample.converter95
              Sample.photos_arg None a Sample.world0)
    as [(F1 & P1 & D1) (F2 & P2 & D2)].
  assert (E1 : lookup_path Sample.photos ["photos"; "b.heic"] = Some (File []))
    by reflexivity.
  assert (E2 : path_exists Sample.photos ["photos"; "c.jpg"] = true)
    by reflexivity.
  assert (E3 : is_dir Sample.photos ["photos"] = true) by reflexivity.
  split; [exact E1|]. split; [exact (F1 _ _ E1)|]. split; [exact (F2 _ _ E1)|].
  split; [exact E2|]. split; [exact (P2 _ E2)|].
  split; [exact E3 | exact (D1 _ E3)].
Defined.

Lemma convert_folder_outputs_exist lib self (input_folder : folder_arg)
    output_folder w w' st :
  convert_folder lib self input_folder output_folder w = (Ok st, w') →
  failed st = 0%nat →
  ∀ heic_file,
    In heic_file (find_heic_files (fs w) input_folder) →
    ∃ folder,
      file_output_folder input_folder output_folder heic_file = Ok folder ∧
      path_exists (fs w') (output_path_of heic_file folder) = true.
Proof.
  unfold convert_folder. rewrite convert_folder_with_unfold.
  destruct (path_exists (fs w) input_folder); [|done].
  destruct (is_dir (fs w) input_folder); [|done]. cbn [negb]. cbv zeta.
  destruct (find_heic_files (fs w) input_folder) as [|f rest] eqn:E;
    [by intros _ _ ? []|].
  rewrite <- E. intros [= <- <-] Hfailed. cbn [tally failed Nat.add] in Hfailed.
  cbn [fs]. by apply all_converted_outputs_exist.
Qed.

(** X5.  When [convert_folder] reports no failure, the output of every
    discovered file exists when it returns: beside the source, or in the
    mirrored folder under the output root. *)
Theorem no_failure_means_every_output_exists
    (lib : Collaborators) (self : HEICToJPGConverter)
    (input_folder : folder_arg) (output_folder : option path)
    (w w' : world) (st : stats) :
  convert_folder lib self input_folder output_folder w = (Ok st, w') →
  failed st = 0%nat →
  ∀ heic_file,
    In heic_file (find_heic_files (fs w) input_folder) →
    ∃ folder,
      file_output_folder input_folder output_folder heic_file = Ok folder ∧
      path_exists (fs w') (output_path_of heic_file folder) = true.
Proof. apply convert_folder_outputs_exist. Qed.

Lemma no_failure_means_every_output_exists_witness :
  let run := convert_folder Sample.sample_lib Sample.converter95
               MoreSamples.twins_arg (Some ["out"]) MoreSamples.twins_world in
  let st := {| total := 3; converted := 3; failed := 0; skipped := 0 |} in
  let deep := ["twins"; "trip"; "b.heic"] in
  run = (Ok st, run.2) ∧
  failed st = 0%nat ∧
  In deep (find_heic_files MoreSamples.twins ["twins"]) ∧
  file_output_folder ["twins"] (Some ["out"]) deep = Ok (Some ["out"; "trip"]) ∧
  path_exists (fs run.2) ["out"; "trip"; "b.jpg"] = true.
Proof.
  intros run st deep.
  assert (H : run = (Ok st, run.2)) by (apply run_result; vm_compute; reflexivity).
  assert (Hf : failed st = 0%nat) by reflexivity.
  assert (Hin : In deep (find_heic_files MoreSamples.twins ["twins"]))
    by (vm_compute; tauto).
  split; [exact H|]. split; [exact Hf|]. split; [exact Hin|].
  assert (Hfo : file_output_folder ["twins"] (Some ["out"]) deep
                = Ok (Some ["out"; "trip"])) by reflexivity.
  split; [exact Hfo|].
  destruct (no_failure_means_every_output_exists _ _ _ _ _ _ _ H Hf deep Hin)
    as (folder & Hfolder & Hex).
  change (file_output_folder ["twins"] (Some ["out"]) deep = Ok folder)
    in Hfolder.
  rewrite Hfo in Hfolder. by injection Hfolder as <-.
Defined.

(** X6.  In [convert_folder] the [except] clause of the loop is never
    taken: the relative path of a discovered file is always found and
    [convert_single_file] does not raise, so every failure counted is a
    call that returned false. *)
Theorem loop_handler_is_never_taken
    (lib : Collaborators) (self : HEICToJPGConverter)
    (input_folder : path) (output_folder : option path) (w : world) :
  let os := outcomes (convert_single_file lib self) input_folder output_folder
              (find_heic_files (fs w) input_folder) w in
  Forall (λ o, o = Converted ∨ o = ReturnedFalse) os.
Proof.
  cbv zeta.
  eapply Forall_impl.
  - apply outcomes_never_raised. apply List.Forall_forall. intros f Hf.
    destruct (discovered_below_folder _ _ _ Hf) as (rel & -> & _). by exists rel.
  - intros o Ho. destruct o; auto. done.
Qed.

(** X7.  With an output root, the folder structure of the input is
    mirrored: a discovered file [input/rel] is written to
    [root/parent(rel)/stem.jpg]; without one, it is written beside the
    source.  The relative path is never empty. *)
Theorem output_tree_mirrors_input
    (t : node) (input_folder root heic_file : path) :
  In heic_file (find_heic_files t input_folder) →
  ∃ rel,
    heic_file = input_folder ++ rel ∧ rel ≠ [] ∧
    file_output_folder input_folder (Some root) heic_file
      = Ok (Some (root ++ parent rel)) ∧
    output_path_of heic_file (Some (root ++ parent rel))
      = root ++ parent rel ++ [stem heic_file +:+ ".jpg"] ∧
    file_output_folder input_folder None heic_file = Ok None ∧
    output_path_of heic_file None
      = parent heic_file ++ [stem heic_file +:+ ".jpg"].
Proof.
  intros H. destruct (discovered_below_folder _ _ _ H) as (rel & -> & Hne).
  exists rel. split; [done|]. split; [done|].
  unfold file_output_folder, output_path_of, joinpath.
  rewrite relative_to_app. by rewrite <- app_assoc.
Qed.

Lemma output_tree_mirrors_input_witness :
  let deep := ["twins"; "trip"; "b.heic"] in
  In deep (find_heic_files MoreSamples.twins ["twins"]) ∧
  file_output_folder ["twins"] (Some ["out"]) deep = Ok (Some ["out"; "trip"]) ∧
  output_path_of deep (Some ["out"; "trip"]) = ["out"; "trip"; "b.jpg"].
Proof.
  intros deep.
  assert (Hin : In deep (find_heic_files MoreSamples.twins ["twins"]))
    by (vm_compute; tauto).
  split; [exact Hin|].
  destruct (output_tree_mirrors_input MoreSamples.twins ["twins"] ["out"]
              deep Hin) as (rel & Hrel & _ & Hf & Ho & _).
  unfold deep in Hrel. simpl in Hrel. injection Hrel as <-.
  split; [exact Hf | exact Ho].
Defined.

(** X8.  [convert_folder] checks its input before anything is searched
    or converted, whatever the per-file calls do.  For a path that is not
    in the tree, the [OSError] of a refused [os.stat] propagates from
    [Path.exists()], and otherwise a [ValueError] says that the input
    folder does not exist; for an entry that is not a directory a
    [ValueError] says so.  Both messages quote the argument as it was
    given, and in all three cases the world is left untouched.  On a
    directory the call always returns a stats record. *)
Theorem convert_folder_checks_input
    (single : path → option path → M world bool)
    (input_folder : folder_arg) (output_folder : option path) (w : world) :
  (path_exists (fs w) input_folder = false →
   (∀ msg, stat_error input_folder = Some msg →
      convert_folder_with single input_folder output_folder w =
        (Raise (OSError msg), w)) ∧
   (stat_error input_folder = None →
      convert_folder_with single input_folder output_folder w =
        (Raise (ValueError ("Input folder does not exist: "
                            +:+ given input_folder)), w))) ∧
  (path_exists (fs w) input_folder = true →
   is_dir (fs w) input_folder = false →
   convert_folder_with single input_folder output_folder w =
     (Raise (ValueError ("Input path is not a directory: "
                         +:+ given input_folder)), w)) ∧
  (is_dir (fs w) input_folder = true →
   ∃ st w', convert_folder_with single input_folder output_folder w
              = (Ok st, w')).
Proof.
  rewrite convert_folder_with_unfold. unfold input_missing.
  split; [|split].
  - intros ->. split; [intros msg ->|intros ->]; done.
  - by intros -> ->.
  - intros Hd.
    assert (Hex : path_exists (fs w) input_folder = true).
    { unfold is_dir, path_exists in *.
      by destruct (lookup_path (fs w) input_folder). }
    rewrite Hex, Hd. cbn [negb]. cbv zeta.
    destruct (find_heic_files (fs w) input_folder); by eexists _, _.
Qed.

Lemma convert_folder_checks_input_witness :
  let cf := convert_folder_with Sample.raising_single in
  (path_exists Sample.photos MoreSamples.long_arg = false ∧
   stat_error MoreSamples.long_arg
     = Some ("[Errno 36] File name too long: '"
             +:+ MoreSamples.long_name +:+ "'") ∧
   cf MoreSamples.long_arg None Sample.world0 =
     (Raise (OSError ("[Errno 36] File name too long: '"
                      +:+ MoreSamples.long_name +:+ "'")),
      Sample.world0)) ∧
  (path_exists Sample.photos MoreSamples.nowhere_arg = false ∧
   stat_error MoreSamples.nowhere_arg = None ∧
   cf MoreSamples.nowhere_arg None Sample.world0 =
     (Raise (ValueError "Input folder does not exist: ./nowhere/"),
      Sample.world0)) ∧
  (path_exists Sample.photos MoreSamples.notes_arg = true ∧
   is_dir Sample.photos MoreSamples.notes_arg = false ∧
   cf MoreSamples.notes_arg None Sample.world0 =
     (Raise (ValueError "Input path is not a directory: photos/notes.txt"),
      Sample.world0)) ∧
  (is_dir Sample.photos Sample.photos_arg = true ∧
   ∃ st w', cf Sample.photos_arg None Sample.world0 = (Ok st, w')).
Proof.
  intros cf. split; [|split; [|split]].
  - assert (E : path_exists Sample.photos MoreSamples.long_arg = false)
      by (vm_compute; reflexivity).
    assert (R : stat_error MoreSamples.long_arg
                = Some ("[Errno 36] File name too long: '"
                        +:+ MoreSamples.long_name +:+ "'")) by reflexivity.
    split; [exact E|]. split; [exact R|].
    exact (proj1 (proj1 (convert_folder_checks_input Sample.raising_single
                           MoreSamples.long_arg None Sample.world0) E) _ R).
  - assert (E : path_exists Sample.photos MoreSamples.nowhere_arg = false)
      by reflexivity.
    assert (R : stat_error MoreSamples.nowhere_arg = None) by reflexivity.
    split; [exact E|]. split; [exact R|].
    exact (proj2 (proj1 (convert_folder_checks_input Sample.raising_single
                           MoreSamples.nowhere_arg None Sample.world0) E) R).
  - assert (E : path_exists Sample.photos MoreSamples.notes_arg = true)
      by reflexivity.
    assert (D : is_dir Sample.photos MoreSamples.notes_arg = false)
      by reflexivity.
    split; [exact E|]. split; [exact D|].
    exact (proj1 (proj2 (convert_folder_checks_input Sample.raising_single
                           MoreSamples.notes_arg None Sample.world0)) E D).
  - assert (D : is_dir Sample.photos Sample.photos_arg = true) by reflexivity.
    split; [exact D|].
    exact (proj2 (proj2 (convert_folder_checks_input Sample.raising_single
                           Sample.photos_arg None Sample.world0)) D).
Defined.

(** ** Output names *)

Section Names.

Lemma append_empty b : "" +:+ b = b.
Proof. reflexivity. Qed.

Lemma append_cons c a b : String c a +:+ b = String c (a +:+ b).
Proof. reflexivity. Qed.

Lemma string_length_app a b :
  String.length (a +:+ b) = (String.length a + String.length b)%nat.
Proof.
  induction a as [|c a IH]; [done|].
  rewrite append_cons. simpl. by rewrite IH.
Qed.

Lemma rfind_dot_app a b :
  rfind_dot (a +:+ b) =
  match rfind_dot b with
  | Some i => Some (String.length a + i)%nat
  | None => rfind_dot a
  end.
Proof.
  induction a as [|c a IH].
  - rewrite append_empty. by destruct (rfind_dot b).
  - rewrite append_cons. cbn [rfind_dot String.length].
    rewrite IH. by destruct (rfind_dot b).
Qed.

Lemma substring_app_skip a b n :
  substring (String.length a) n (a +:+ b) = substring 0 n b.
Proof.
  induction a as [|c a IH]; [done|]. rewrite append_cons. exact IH.
Qed.

Lemma substring_app_take a b :
  substring 0 (String.length a) (a +:+ b) = a.
Proof.
  induction a as [|c a IH]; [by destruct b|].
  rewrite append_cons. simpl. by rewrite IH.
Qed.

Lemma name_joinpath d x : name (joinpath d x) = x.
Proof. unfold name, joinpath. apply last_last. Qed.

Lemma parent_joinpath d x : parent (joinpath d x) = d.
Proof. unfold parent, joinpath. apply removelast_last. Qed.

Lemma suffix_start_jpg s :
  s ≠ "" → suffix_start (s +:+ ".jpg") = Some (String.length s).
Proof.
  intros Hs. unfold suffix_start. rewrite rfind_dot_app, string_length_app.
  cbn [rfind_dot Ascii.eqb Bool.eqb String.length].
  assert (0 < String.length s)%nat by (destruct s; [done | simpl; lia]).
  rewrite Nat.add_0_r.
  destruct (Nat.ltb_spec 0 (String.length s)); [|lia].
  destruct (Nat.ltb_spec (String.length s) (String.length s + 4 - 1)); [|lia].
  done.
Qed.

(** A name with a suffix has a stem that is not empty. *)
Lemma stem_of_suffixed p : suffix p ≠ "" → stem p ≠ "".
Proof.
  unfold suffix, stem. destruct (suffix_start (name p)) as [i|] eqn:E; [|done].
  intros _. unfold suffix_start in E.
  destruct (rfind_dot (name p)) as [j|]; [|done].
  destruct (Nat.ltb_spec 0 j); [|done].
  destruct (Nat.ltb_spec j (String.length (name p) - 1)); [|done].
  injection E as <-.
  destruct (name p) as [|c r]; [simpl in *; lia|].
  destruct j; [lia | done].
Qed.

Lemma heic_suffix_facts s :
  s ∈ heic_extensions → s ≠ "" ∧ s ≠ ".jpg".
Proof.
  unfold heic_extensions. intros H. set_unfold.
  destruct H as [[[->| ->]| ->]| ->]; done.
Qed.

End Names.

(** The parts of an output path. *)
Lemma output_path_parts (source_path : path) (output_folder : option path) :
  stem source_path ≠ "" →
  let output_path := output_path_of source_path output_folder in
  name output_path = stem source_path +:+ ".jpg" ∧
  suffix output_path = ".jpg" ∧
  stem output_path = stem source_path ∧
  parent output_path = default (parent source_path) output_folder.
Proof.
  intros Hs output_path.
  assert (Hn : name output_path = stem source_path +:+ ".jpg").
  { unfold output_path, output_path_of.
    destruct output_folder; apply name_joinpath. }
  split; [exact Hn|]. split; [|split].
  - unfold suffix. rewrite Hn, (suffix_start_jpg _ Hs), string_length_app.
    replace (String.length (stem source_path) + String.length ".jpg"
             - String.length (stem source_path))%nat with 4%nat by (simpl; lia).
    by rewrite substring_app_skip.
  - unfold stem at 1. rewrite Hn, (suffix_start_jpg _ Hs).
    apply substring_app_take.
  - unfold output_path, output_path_of.
    destruct output_folder; apply parent_joinpath.
Qed.

(** X9.  The output of a source whose stem is not empty is named after
    the stem with the suffix [.jpg], and lies in the output folder when
    one is given, beside the source otherwise. *)
Theorem output_path_naming (source_path : path) (output_folder : option path) :
  stem source_path ≠ "" →
  let output_path := output_path_of source_path output_folder in
  name output_path = stem source_path +:+ ".jpg" ∧
  suffix output_path = ".jpg" ∧
  stem output_path = stem source_path ∧
  parent output_path = default (parent source_path) output_folder.
Proof. apply output_path_parts. Qed.

Lemma output_path_naming_witness :
  let source := ["photos"; "holiday.2024.HEIC"] in
  stem source ≠ "" ∧
  output_path_of source (Some ["out"]) = ["out"; "holiday.2024.jpg"] ∧
  suffix (output_path_of source (Some ["out"])) = ".jpg" ∧
  stem (output_path_of source None) = "holiday.2024" ∧
  parent (output_path_of source None) = ["photos"].
Proof.
  intros source.
  assert (Hs : stem source ≠ "") by (vm_compute; discriminate).
  split; [exact Hs|]. split; [reflexivity|].
  destruct (output_path_naming source (Some ["out"]) Hs) as (_ & H2 & _).
  destruct (output_path_naming source None Hs) as (_ & _ & H3 & H4).
  split; [exact H2|]. split; [exact H3 | exact H4].
Defined.

(** X10.  The output of a discovered file is never the file itself and is
    not a file discovery would pick up: it keeps the stem and carries the
    suffix [.jpg], which is none of the listed extensions. *)
Theorem outputs_are_not_sources
    (t : node) (input_folder heic_file : path) (output_folder : option path) :
  In heic_file (find_heic_files t input_folder) →
  let output_path := output_path_of heic_file output_folder in
  output_path ≠ heic_file ∧
  suffix output_path = ".jpg" ∧
  stem output_path = stem heic_file ∧
  suffix output_path ∉ heic_extensions.
Proof.
  intros H output_path. apply find_heic_files_exact in H.
  destruct H as (root & rel & data & _ & _ & _ & Hsuf).
  destruct (heic_suffix_facts _ Hsuf) as [Hne Hjpg].
  destruct (output_path_parts heic_file output_folder (stem_of_suffixed _ Hne))
    as (_ & Hs & Hst & _).
  fold output_path in Hs, Hst.
  split; [|split; [done | split; [done|]]].
  - intros Heq. rewrite Heq in Hs. congruence.
  - rewrite Hs. intros Hin. by destruct (heic_suffix_facts _ Hin).
Qed.

Lemma outputs_are_not_sources_witness :
  let deep := ["twins"; "trip"; "b.heic"] in
  In deep (find_heic_files MoreSamples.twins ["twins"]) ∧
  output_path_of deep None = ["twins"; "trip"; "b.jpg"] ∧
  output_path_of deep None ≠ deep ∧
  suffix (output_path_of deep None) ∉ heic_extensions.
Proof.
  intros deep.
  assert (Hin : In deep (find_heic_files MoreSamples.twins ["twins"]))
    by (vm_compute; tauto).
  split; [exact Hin|]. split; [reflexivity|].
  destruct (outputs_are_not_sources MoreSamples.twins ["twins"] deep None Hin)
    as (H1 & _ & _ & H4).
  split; [exact H1 | exact H4].
Defined.

(** ** The encoder's arguments, entry by entry *)

Section KwargsEntries.

Variable lib : Collaborators.
Variable self : HEICToJPGConverter.

Lemma save_kwargs_icc_profile metadata :
  save_kwargs lib self metadata !! "icc_profile" = icc_profile metadata.
Proof.
  unfold save_kwargs. cbv zeta.
  set (kw0 := ({[ "format" := _; "quality" := _; "optimize" := _ ]}
               : gmap string pyval)).
  assert (H0 : kw0 !! "icc_profile" = None) by done.
  set (kw1 := match exif_data lib metadata with Some _ => _ | None => _ end).
  assert (H1 : kw1 !! "icc_profile" = None).
  { unfold kw1. destruct (exif_data lib metadata) as [v|]; [|done].
    destruct (truthy v); [by rewrite lookup_insert_ne | done]. }
  set (kw2 := match icc_profile metadata with Some _ => _ | None => _ end).
  assert (H2 : kw2 !! "icc_profile" = icc_profile metadata).
  { unfold kw2. destruct (icc_profile metadata); [|done].
    apply lookup_insert_eq. }
  destruct (md_info metadata); [|done].
  rewrite copy_loop_skips; [done|].
  apply list_elem_of_further, list_elem_of_here.
Qed.

(** Any other key: the scalar entry of the info mapping if there is one,
    the entry the arguments started with otherwise. *)
Lemma save_kwargs_other metadata key :
  key ∉ ["exif"; "icc_profile"; "xmp"] →
  save_kwargs lib self metadata !! key =
  match md_info metadata ≫= (λ i, i !! key) with
  | Some v => if is_scalar v then Some v else base_kwargs self !! key
  | None => base_kwargs self !! key
  end.
Proof.
  intros Hkey.
  assert (Hexif : key ≠ "exif")
    by (intros ->; apply Hkey, list_elem_of_here).
  assert (Hicc : key ≠ "icc_profile")
    by (intros ->; apply Hkey, list_elem_of_further, list_elem_of_here).
  unfold save_kwargs, base_kwargs. cbv zeta.
  set (kw0 := ({[ "format" := _; "quality" := _; "optimize" := _ ]}
               : gmap string pyval)).
  set (kw1 := match exif_data lib metadata with Some _ => _ | None => _ end).
  assert (H1 : kw1 !! key = kw0 !! key).
  { unfold kw1. destruct (exif_data lib metadata) as [v|]; [|done].
    destruct (truthy v); [by rewrite lookup_insert_ne | done]. }
  set (kw2 := match icc_profile metadata with Some _ => _ | None => _ end).
  assert (H2 : kw2 !! key = kw0 !! key).
  { unfold kw2. destruct (icc_profile metadata); [|done].
    by rewrite lookup_insert_ne. }
  destruct (md_info metadata) as [i|]; cbn [mbind option_bind]; [|done].
  destruct (i !! key) as [v|] eqn:Hv.
  - destruct (is_scalar v) eqn:Hsc.
    + apply lookup_union_Some_raw. left.
      apply map_lookup_filter_Some_2; [done|].
      split; [done | simpl; by rewrite Hsc].
    + rewrite lookup_union_r; [done|].
      apply map_lookup_filter_None_2. right.
      intros x Hx [_ Hs]. simpl in Hs. rewrite Hv in Hx.
      injection Hx as <-. by rewrite Hsc in Hs.
  - rewrite lookup_union_r; [done|].
    apply map_lookup_filter_None_2. by left.
Qed.

End KwargsEntries.

(** X11.  The arguments handed to the encoder, entry by entry: the ICC
    profile of the bundle is passed as it is even when it is not bytes;
    every scalar entry of the info mapping under another key is copied and
    the other entries are dropped; a key the info mapping does not supply
    keeps the value the arguments started with (format JPEG, the
    configured quality, optimize on). *)
Theorem save_kwargs_entries
    (lib : Collaborators) (self : HEICToJPGConverter)
    (metadata : metadata_info) (key : string) :
  save_kwargs lib self metadata !! "icc_profile" = icc_profile metadata ∧
  (key ∉ ["exif"; "icc_profile"; "xmp"] →
   save_kwargs lib self metadata !! key =
   match md_info metadata ≫= (λ i, i !! key) with
   | Some v => if is_scalar v then Some v else base_kwargs self !! key
   | None => base_kwargs self !! key
   end).
Proof.
  split; [apply save_kwargs_icc_profile | apply save_kwargs_other].
Qed.

Lemma save_kwargs_entries_witness :
  let metadata := preserve_metadata MoreSamples.rich_picture ["x.jpg"] in
  let kw := save_kwargs Sample.sample_lib Sample.converter95 metadata in
  ("chroma" ∉ ["exif"; "icc_profile"; "xmp"]) ∧
  kw !! "icc_profile" = Some (VBytes [Sample.x02]) ∧
  kw !! "chroma" = None ∧
  kw !! "format" = Some (VStr "JPEG").
Proof.
  intros metadata kw.
  assert (H : "chroma" ∉ ["exif"; "icc_profile"; "xmp"])
    by (apply (bool_decide_unpack _); vm_compute; exact I).
  split; [exact H|]. unfold kw.
  destruct (save_kwargs_entries Sample.sample_lib Sample.converter95
              metadata "chroma") as [H1 H2].
  split; [exact H1|]. split; [|vm_compute; reflexivity].
  rewrite (H2 H). vm_compute. reflexivity.
Defined.

(** X12.  The configured quality reaches the encoder unless the info
    mapping of the source has a scalar entry named ['quality']: such an
    entry is copied last and replaces the configured value. *)
Theorem info_quality_overrides_configuration
    (lib : Collaborators) (self : HEICToJPGConverter)
    (metadata : metadata_info) :
  (∀ i v, md_info metadata = Some i → i !! "quality" = Some v →
          is_scalar v = true →
          save_kwargs lib self metadata !! "quality" = Some v) ∧
  ((∀ i v, md_info metadata = Some i → i !! "quality" = Some v →
           is_scalar v = false) →
   save_kwargs lib self metadata !! "quality" = Some (VInt (quality self))).
Proof.
  assert (Hk : "quality" ∉ ["exif"; "icc_profile"; "xmp"])
    by (apply (bool_decide_unpack _); vm_compute; exact I).
  split.
  - intros i v Hi Hv Hs. rewrite (save_kwargs_other _ _ _ _ Hk), Hi.
    cbn [mbind option_bind]. by rewrite Hv, Hs.
  - intros H. rewrite (save_kwargs_other _ _ _ _ Hk).
    destruct (md_info metadata) as [i|]; cbn [mbind option_bind]; [|done].
    destruct (i !! "quality") as [v|] eqn:Hv; [|done].
    by rewrite (H i v eq_refl Hv).
Qed.

Lemma info_quality_overrides_configuration_witness :
  let rich := preserve_metadata MoreSamples.rich_picture ["x.jpg"] in
  let plain := preserve_metadata Sample.plain_picture ["x.jpg"] in
  (md_info rich = Some (info MoreSamples.rich_picture) ∧
   info MoreSamples.rich_picture !! "quality" = Some (VInt 10) ∧
   save_kwargs Sample.sample_lib Sample.converter95 rich !! "quality"
     = Some (VInt 10)) ∧
  (md_info plain = Some (info Sample.plain_picture) ∧
   info Sample.plain_picture !! "quality" = None ∧
   save_kwargs Sample.sample_lib Sample.converter95 plain !! "quality"
     = Some (VInt 95)).
Proof.
  intros rich plain.
  assert (R1 : md_info rich = Some (info MoreSamples.rich_picture))
    by (vm_compute; reflexivity).
  assert (R2 : info MoreSamples.rich_picture !! "quality" = Some (VInt 10))
    by (vm_compute; reflexivity).
  assert (P1 : md_info plain = Some (info Sample.plain_picture))
    by (vm_compute; reflexivity).
  assert (P2 : info Sample.plain_picture !! "quality" = None)
    by (vm_compute; reflexivity).
  split.
  - split; [exact R1|]. split; [exact R2|].
    exact (proj1 (info_quality_overrides_configuration Sample.sample_lib
                    Sample.converter95 rich) _ _ R1 R2 eq_refl).
  - split; [exact P1|]. split; [exact P2|].
    apply (proj2 (info_quality_overrides_configuration Sample.sample_lib
                    Sample.converter95 plain)).
    intros i v Hi Hv. congruence.
Defined.

(** ** Metadata extraction *)

Section Extraction.

Lemma py_len_has_len v : has_len v = true → ∃ n, py_len v = Ok n.
Proof. destruct v as [| | | | | |tag truth [n|]]; try done; by eexists. Qed.

Lemma py_len_no_len v : has_len v = false → py_len v = Raise TypeError.
Proof. by destruct v as [| | | | | |tag truth [n|]]. Qed.

Lemma nonempty_map_lookup (m : gmap string pyval) k v :
  m !! k = Some v → nonempty_map m = true.
Proof.
  intros H. unfold nonempty_map. destruct (size m) eqn:Hs; [|done].
  apply map_size_empty_inv in Hs. subst. by rewrite lookup_empty in H.
Qed.

Lemma empty_map_lookup (m : gmap string pyval) k :
  nonempty_map m = false → m !! k = None.
Proof.
  unfold nonempty_map. destruct (size m) eqn:Hs; [|done]. intros _.
  apply map_size_empty_inv in Hs. subst. apply lookup_empty.
Qed.

(** One slot of the info mapping, when the value (if any) has a length. *)
Lemma copy_key_sized img key store m :
  sized_or_absent (info img !! key) = true →
  copy_key img key store m =
  (Ok tt, match info img !! key with Some v => store v m | None => m end).
Proof.
  unfold copy_key. destruct (info img !! key) as [v|]; [|done]. simpl.
  intros Hv. destruct (py_len_has_len v Hv) as [n Hn].
  unfold bind, modify, lift_res, ret. by rewrite Hn.
Qed.

Lemma copy_key_unsized img key store m v :
  info img !! key = Some v → has_len v = false →
  copy_key img key store m = (Raise TypeError, store v m).
Proof.
  unfold copy_key. intros -> Hv.
  unfold bind, modify, lift_res. by rewrite (py_len_no_len v Hv).
Qed.

Lemma extract_exif_dict_run img m :
  extract_exif_dict img m =
  (Ok tt, match probed_exif_dict img with
          | Some d => set_exif_dict d m
          | None => m
          end).
Proof.
  unfold extract_exif_dict, probed_exif_dict, try_except, bind, lift_res.
  destruct (getexif img) as [d|e]; [|done].
  by destruct (nonempty_dict d).
Qed.

Lemma extract_legacy_exif_run img m :
  extract_legacy_exif img m =
  (Ok tt, match probed_legacy_exif img with
          | Some d => set_legacy_exif d m
          | None => m
          end).
Proof.
  unfold extract_legacy_exif, probed_legacy_exif, try_except, bind, lift_res.
  destruct (_getexif img) as [|[[d|]|e]]; try done.
  by destruct (nonempty_dict d).
Qed.

End Extraction.

Section ExtractionRuns.

Variable img : image.

Lemma extract_info_sized :
  sized_or_absent (info img !! "exif") = true →
  sized_or_absent (info img !! "xmp") = true →
  sized_or_absent (info img !! "icc_profile") = true →
  extract_info img empty_metadata =
  (Ok tt,
   {| md_info := if nonempty_map (info img) then Some (info img) else None;
      exif_raw := info img !! "exif";
      xmp := info img !! "xmp";
      icc_profile := info img !! "icc_profile";
      exif_dict := None;
      legacy_exif := None |}).
Proof.
  intros He Hx Hi. unfold extract_info.
  destruct (nonempty_map (info img)) eqn:Hn.
  - unfold bind at 1, modify.
    rewrite (bind_Ok _ _ _ _ _ (copy_key_sized img "exif" set_exif_raw _ He)).
    rewrite (bind_Ok _ _ _ _ _ (copy_key_sized img "xmp" set_xmp _ Hx)).
    rewrite (copy_key_sized img "icc_profile" set_icc_profile _ Hi).
    by destruct (info img !! "exif"), (info img !! "xmp"),
      (info img !! "icc_profile").
  - by rewrite !(empty_map_lookup _ _ Hn).
Qed.

(** A value without a length makes the info step raise, whichever of the
    three keys holds it: a slot is filled before its value is measured, so
    the slots up to and including the offending one are filled by then. *)
Lemma extract_info_unsized :
  sized_or_absent (info img !! "exif")
    && sized_or_absent (info img !! "xmp")
    && sized_or_absent (info img !! "icc_profile") = false →
  extract_info img empty_metadata =
  (Raise TypeError,
   {| md_info := Some (info img);
      exif_raw := info img !! "exif";
      xmp := if sized_or_absent (info img !! "exif")
             then info img !! "xmp" else None;
      icc_profile := if sized_or_absent (info img !! "exif")
                        && sized_or_absent (info img !! "xmp")
                     then info img !! "icc_profile" else None;
      exif_dict := None;
      legacy_exif := None |}).
Proof.
  intros H. unfold extract_info.
  assert (Hn : nonempty_map (info img) = true).
  { destruct (info img !! "exif") as [v|] eqn:E;
      [by eapply nonempty_map_lookup|].
    destruct (info img !! "xmp") as [v|] eqn:E2;
      [by eapply nonempty_map_lookup|].
    destruct (info img !! "icc_profile") as [v|] eqn:E3;
      [by eapply nonempty_map_lookup | done]. }
  rewrite Hn. unfold bind at 1, modify.
  destruct (sized_or_absent (info img !! "exif")) eqn:He.
  - rewrite (bind_Ok _ _ _ _ _ (copy_key_sized img "exif" set_exif_raw _ He)).
    destruct (sized_or_absent (info img !! "xmp")) eqn:Hx.
    + rewrite (bind_Ok _ _ _ _ _ (copy_key_sized img "xmp" set_xmp _ Hx)).
      simpl in H.
      destruct (info img !! "icc_profile") as [v|] eqn:Ei; [|done].
      rewrite (copy_key_unsized img "icc_profile" set_icc_profile _ v Ei H).
      by destruct (info img !! "exif"), (info img !! "xmp").
    + destruct (info img !! "xmp") as [v|] eqn:Ex; [|done].
      rewrite (bind_Raise _ _ _ _ _
                 (copy_key_unsized img "xmp" set_xmp _ v Ex Hx)).
      by destruct (info img !! "exif").
  - destruct (info img !! "exif") as [v|] eqn:Ee; [|done].
    by rewrite (bind_Raise _ _ _ _ _
                  (copy_key_unsized img "exif" set_exif_raw _ v Ee He)).
Qed.

End ExtractionRuns.

(** X13.  When the EXIF, XMP and ICC entries of the info mapping are
    absent or have a length, [preserve_metadata] fills every slot from its
    own source: the info mapping is kept when it is not empty, the three
    entries are copied as they are, and the structured and the legacy EXIF
    view are each recorded when their accessor returns a non-empty
    dictionary, one accessor failing without effect on the other. *)
Theorem preserve_metadata_slots (source_image : image) (target_path : path) :
  sized_or_absent (info source_image !! "exif") = true →
  sized_or_absent (info source_image !! "xmp") = true →
  sized_or_absent (info source_image !! "icc_profile") = true →
  preserve_metadata source_image target_path =
  {| md_info := if nonempty_map (info source_image)
                then Some (info source_image) else None;
     exif_raw := info source_image !! "exif";
     xmp := info source_image !! "xmp";
     icc_profile := info source_image !! "icc_profile";
     exif_dict := probed_exif_dict source_image;
     legacy_exif := probed_legacy_exif source_image |}.
Proof.
  intros He Hx Hi. unfold preserve_metadata, try_except.
  rewrite (bind_Ok _ _ _ _ _ (extract_info_sized source_image He Hx Hi)).
  rewrite (bind_Ok _ _ _ _ _ (extract_exif_dict_run source_image _)).
  rewrite extract_legacy_exif_run. cbn [snd].
  by destruct (probed_exif_dict source_image),
    (probed_legacy_exif source_image).
Qed.

Lemma preserve_metadata_slots_witness :
  let img := MoreSamples.rich_picture in
  sized_or_absent (info img !! "exif") = true ∧
  sized_or_absent (info img !! "xmp") = true ∧
  sized_or_absent (info img !! "icc_profile") = true ∧
  exif_raw (preserve_metadata img ["x.jpg"]) = Some (VBytes [Sample.x01]) ∧
  exif_dict (preserve_metadata img ["x.jpg"])
    = Some [(KInt 271, VStr "maker")] ∧
  legacy_exif (preserve_metadata img ["x.jpg"]) = None.
Proof.
  intros img.
  assert (He : sized_or_absent (info img !! "exif") = true)
    by (vm_compute; reflexivity).
  assert (Hx : sized_or_absent (info img !! "xmp") = true)
    by (vm_compute; reflexivity).
  assert (Hi : sized_or_absent (info img !! "icc_profile") = true)
    by (vm_compute; reflexivity).
  split; [exact He|]. split; [exact Hx|]. split; [exact Hi|].
  rewrite (preserve_metadata_slots img ["x.jpg"] He Hx Hi).
  cbn [exif_raw exif_dict legacy_exif]. by vm_compute.
Defined.

(** X14.  An EXIF, XMP or ICC entry of the info mapping on which [len]
    raises ([None], a number, an object without a length; a tuple, a list
    or a dict has one) cuts the extraction short: the debug message that
    measures it raises, and neither the structured nor the legacy EXIF
    view is probed, whatever they hold.  The info mapping is recorded by
    then, and so are the entries up to and including the offending one,
    each being stored before it is measured: the raw EXIF entry always,
    the XMP entry when the EXIF entry could be measured, the ICC profile
    when both could. *)
Theorem unsized_entry_stops_extraction
    (source_image : image) (target_path : path) :
  sized_or_absent (info source_image !! "exif")
    && sized_or_absent (info source_image !! "xmp")
    && sized_or_absent (info source_image !! "icc_profile") = false →
  preserve_metadata source_image target_path =
  {| md_info := Some (info source_image);
     exif_raw := info source_image !! "exif";
     xmp := if sized_or_absent (info source_image !! "exif")
            then info source_image !! "xmp" else None;
     icc_profile := if sized_or_absent (info source_image !! "exif")
                       && sized_or_absent (info source_image !! "xmp")
                    then info source_image !! "icc_profile" else None;
     exif_dict := None;
     legacy_exif := None |}.
Proof.
  intros H. unfold preserve_metadata, try_except.
  by rewrite (bind_Raise _ _ _ _ _ (extract_info_unsized source_image H)).
Qed.

Lemma unsized_entry_stops_extraction_witness :
  let img := MoreSamples.odd_picture in
  let metadata := preserve_metadata img ["x.jpg"] in
  sized_or_absent (info img !! "exif")
    && sized_or_absent (info img !! "xmp")
    && sized_or_absent (info img !! "icc_profile") = false ∧
  getexif img = Ok [(KInt 271, VStr "maker")] ∧
  metadata =
    {| md_info := Some (info img);
       exif_raw := Some (VBytes [Sample.x01]);
       xmp := None;
       icc_profile := Some VNone;
       exif_dict := None;
       legacy_exif := None |} ∧
  has_len (VOther 0 true (Some 2%nat)) = true.
Proof.
  intros img metadata.
  assert (H : sized_or_absent (info img !! "exif")
              && sized_or_absent (info img !! "xmp")
              && sized_or_absent (info img !! "icc_profile") = false)
    by (vm_compute; reflexivity).
  split; [exact H|]. split; [reflexivity|]. split; [|reflexivity].
  unfold metadata.
  rewrite (unsized_entry_stops_extraction img ["x.jpg"] H).
  f_equal; vm_compute; reflexivity.
Defined.

(** ** The verification pass *)

(** X15.  [verify_metadata_preservation] is harmless: it never raises,
    leaves the tree as it is, and does nothing but open images. *)
Theorem verification_is_harmless
    (lib : Collaborators) (original_path converted_path : path) (w : world) :
  ∃ v w' evs,
    verify_metadata_preservation lib original_path converted_path w
      = (Ok v, w') ∧
    fs w' = fs w ∧
    trace w' = trace w ++ evs ∧
    Forall open_event evs.
Proof.
  destruct (verify_returns lib original_path converted_path w) as [v Hv].
  pose proof (verify_same_fs lib original_path converted_path w) as Hs.
  destruct (verify_events lib original_path converted_path w)
    as (evs & He & Hf).
  destruct (verify_metadata_preservation lib original_path converted_path w)
    as [r w'] eqn:E.
  simpl in *. subst r. by exists v, w', evs.
Qed.

(** X16.  What the verification reports.  If the original cannot be
    opened, the record it started from; if the converted file cannot be
    opened or its EXIF view cannot be read, only the number of info
    entries of the original; otherwise also whether the converted image
    has EXIF tags (and which) and whether its info mapping has an ICC
    profile. *)
Theorem verification_report
    (lib : Collaborators) (original_path converted_path : path) (w : world) :
  let verify := verify_metadata_preservation lib original_path converted_path in
  let counted original_img :=
    {| exif_preserved := false; icc_profile_preserved := false;
       metadata_count_original :=
         size (default ∅ (md_info (preserve_metadata original_img
                                      converted_path)));
       metadata_count_converted := 0;
       preserved_tags := [] |} in
  (∀ e w1,
     Image_open lib original_path w = (Raise e, w1) →
     verify w = (Ok no_verification, w1)) ∧
  (∀ original_img w1 e w2,
     Image_open lib original_path w = (Ok original_img, w1) →
     Image_open lib converted_path w1 = (Raise e, w2) →
     verify w = (Ok (counted original_img), w2)) ∧
  (∀ original_img w1 converted_img w2 e,
     Image_open lib original_path w = (Ok original_img, w1) →
     Image_open lib converted_path w1 = (Ok converted_img, w2) →
     getexif converted_img = Raise e →
     verify w = (Ok (counted original_img), w2)) ∧
  (∀ original_img w1 converted_img w2 converted_exif,
     Image_open lib original_path w = (Ok original_img, w1) →
     Image_open lib converted_path w1 = (Ok converted_img, w2) →
     getexif converted_img = Ok converted_exif →
     verify w =
       (Ok {| exif_preserved := nonempty_dict converted_exif;
              icc_profile_preserved :=
                bool_decide (is_Some (info converted_img !! "icc_profile"));
              metadata_count_original :=
                metadata_count_original (counted original_img);
              metadata_count_converted := size (info converted_img);
              preserved_tags := List.map fst converted_exif |}, w2)).
Proof.
  cbv zeta. unfold verify_metadata_preservation, no_verification.
  split; [|split; [|split]].
  - intros e w1 H. by rewrite (try_except_Raise _ _ _ e w1);
      [|rewrite (bind_Raise _ _ _ _ _ H)].
  - intros original_img w1 e w2 H1 H2.
    apply try_except_Ok. rewrite (bind_Ok _ _ _ _ _ H1).
    by rewrite (try_except_Raise _ _ _ e w2);
      [|rewrite (bind_Raise _ _ _ _ _ H2)].
  - intros original_img w1 converted_img w2 e H1 H2 H3.
    apply try_except_Ok. rewrite (bind_Ok _ _ _ _ _ H1).
    rewrite (try_except_Raise _ _ _ e w2); [done|].
    rewrite (bind_Ok _ _ _ _ _ H2). unfold bind, lift_res. by rewrite H3.
  - intros original_img w1 converted_img w2 converted_exif H1 H2 H3.
    apply try_except_Ok. rewrite (bind_Ok _ _ _ _ _ H1).
    apply try_except_Ok. rewrite (bind_Ok _ _ _ _ _ H2).
    unfold bind, lift_res. by rewrite H3.
Qed.

Lemma verification_report_witness :
  let verify := verify_metadata_preservation Sample.sample_lib in
  let w := Sample.world0 in
  let a := ["photos"; "a.heic"] in
  let b := ["photos"; "b.heic"] in
  let c := ["photos"; "c.jpg"] in
  (* the original is not an image *)
  ((Image_open Sample.sample_lib b w).1 = Raise LibraryError ∧
   (verify b c w).1 = Ok no_verification) ∧
  (* the converted file is missing *)
  ((Image_open Sample.sample_lib a w).1 = Ok Sample.plain_picture ∧
   (Image_open Sample.sample_lib ["photos"; "a.jpg"]
      (Image_open Sample.sample_lib a w).2).1 = Raise FileNotFoundError ∧
   (verify a ["photos"; "a.jpg"] w).1 =
     Ok {| exif_preserved := false; icc_profile_preserved := false;
           metadata_count_original := 3; metadata_count_converted := 0;
           preserved_tags := [] |}) ∧
  (* both are read *)
  ((Image_open Sample.sample_lib c (Image_open Sample.sample_lib a w).2).1
     = Ok Sample.legacy_picture ∧
   getexif Sample.legacy_picture = Ok [] ∧
   (verify a c w).1 =
     Ok {| exif_preserved := false; icc_profile_preserved := false;
           metadata_count_original := 3; metadata_count_converted := 0;
           preserved_tags := [] |}).
Proof.
  intros verify w a b c.
  destruct (verification_report Sample.sample_lib b c w) as (R1 & _).
  destruct (verification_report Sample.sample_lib a ["photos"; "a.jpg"] w)
    as (_ & R2 & _).
  destruct (verification_report Sample.sample_lib a c w) as (_ & _ & _ & R4).
  split; [|split].
  - assert (E : (Image_open Sample.sample_lib b w).1 = Raise LibraryError)
      by (vm_compute; reflexivity).
    split; [exact E|]. unfold verify. by rewrite (R1 _ _ (run_result _ _ _ E)).
  - assert (E1 : (Image_open Sample.sample_lib a w).1 = Ok Sample.plain_picture)
      by (vm_compute; reflexivity).
    assert (E2 : (Image_open Sample.sample_lib ["photos"; "a.jpg"]
                    (Image_open Sample.sample_lib a w).2).1
                 = Raise FileNotFoundError) by (vm_compute; reflexivity).
    split; [exact E1|]. split; [exact E2|]. unfold verify.
    rewrite (R2 _ _ _ _ (run_result _ _ _ E1) (run_result _ _ _ E2)).
    by vm_compute.
  - assert (E1 : (Image_open Sample.sample_lib a w).1 = Ok Sample.plain_picture)
      by (vm_compute; reflexivity).
    assert (E2 : (Image_open Sample.sample_lib c
                    (Image_open Sample.sample_lib a w).2).1
                 = Ok Sample.legacy_picture) by (vm_compute; reflexivity).
    assert (E3 : getexif Sample.legacy_picture = Ok []) by reflexivity.
    split; [exact E2|]. split; [exact E3|]. unfold verify.
    rewrite (R4 _ _ _ _ _ (run_result _ _ _ E1) (run_result _ _ _ E2) E3).
    by vm_compute.
Defined.

(** ** The command line, end to end *)

Section EndToEnd.

Variable lib : Collaborators.

(** How [main] ends when the quality is in range, by the result of
    [convert_folder]. *)
Lemma main_after_convert_folder a w r w1 :
  in_range (arg_quality a) = true →
  convert_folder lib {| quality := arg_quality a; verbose := arg_verbose a |}
    (input_folder a) (output a) w = (r, w1) →
  main lib a w =
  match r with
  | Ok st =>
      (Ok (if Nat.eqb (failed st) 0 then 0
           else if (0 <? converted st)%nat then 1 else 2), w1)
  | Raise e =>
      (Ok 3, {| fs := fs w1;
                trace := trace w1 ++ [EvPrint ("Error: " +:+ exc_str e)] |})
  end.
Proof.
  intros Hq Hc. rewrite (main_accepts _ _ _ Hq).
  unfold try_except, bind at 1. rewrite Hc.
  destruct r as [st|e]; [|done].
  destruct (Nat.eqb (failed st) 0); [done|].
  by destruct (0 <? converted st)%nat.
Qed.

End EndToEnd.

(** X17.  Exit code 0 is a guarantee: when [main] ends with it, the
    quality was in range, the input folder is a directory, and the output
    of every discovered file exists in the tree it leaves. *)
Theorem exit_code_zero_means_all_converted
    (lib : Collaborators) (a : args) (w w' : world) :
  main lib a w = (Ok 0, w') →
  in_range (arg_quality a) = true ∧
  is_dir (fs w) (input_folder a) = true ∧
  ∀ heic_file,
    In heic_file (find_heic_files (fs w) (input_folder a)) →
    ∃ folder,
      file_output_folder (input_folder a) (output a) heic_file = Ok folder ∧
      path_exists (fs w') (output_path_of heic_file folder) = true.
Proof.
  intros H.
  destruct (in_range (arg_quality a)) eqn:Hq;
    [|by rewrite (main_rejects _ _ _ Hq) in H].
  split; [done|].
  destruct (convert_folder lib
              {| quality := arg_quality a; verbose := arg_verbose a |}
              (input_folder a) (output a) w) as [r w1] eqn:Hc.
  rewrite (main_after_convert_folder _ _ _ _ _ Hq Hc) in H.
  destruct r as [st|e]; [|done].
  destruct (Nat.eqb (failed st) 0) eqn:Hf;
    [|by destruct (0 <? converted st)%nat].
  injection H as <-. apply Nat.eqb_eq in Hf. split.
  - unfold convert_folder in Hc. rewrite convert_folder_with_unfold in Hc.
    destruct (path_exists (fs w) (input_folder a)); [|done].
    by destruct (is_dir (fs w) (input_folder a)).
  - by apply (convert_folder_outputs_exist _ _ _ _ _ _ _ Hc Hf).
Qed.

Lemma exit_code_zero_means_all_converted_witness :
  let a := {| input_folder := MoreSamples.twins_arg; output := Some ["out"];
              arg_quality := 80; arg_verbose := true |} in
  let deep := ["twins"; "trip"; "b.heic"] in
  let run := main Sample.sample_lib a MoreSamples.twins_world in
  run = (Ok 0, run.2) ∧
  In deep (find_heic_files MoreSamples.twins ["twins"]) ∧
  path_exists (fs run.2) ["out"; "trip"; "b.jpg"] = true.
Proof.
  intros a deep run.
  assert (H : run = (Ok 0, run.2)) by (apply run_result; vm_compute; reflexivity).
  assert (Hin : In deep (find_heic_files MoreSamples.twins ["twins"]))
    by (vm_compute; tauto).
  split; [exact H|]. split; [exact Hin|].
  destruct (exit_code_zero_means_all_converted _ _ _ _ H) as (_ & _ & Hall).
  destruct (Hall deep Hin) as (folder & Hfolder & Hex).
  assert (Hfo : file_output_folder ["twins"] (Some ["out"]) deep
                = Ok (Some ["out"; "trip"])) by reflexivity.
  change (file_output_folder ["twins"] (Some ["out"]) deep = Ok folder)
    in Hfolder.
  rewrite Hfo in Hfolder. by injection Hfolder as <-.
Defined.

(** X18.  With a quality in range, an input path that is not an existing
    directory makes [main] print one line and end with code 3, the tree
    untouched and no image opened.  The line is [Error: ] followed by the
    text of the [OSError] when [os.stat] is refused, and otherwise by
    [Input folder does not exist: ] or [Input path is not a directory: ]
    and the argument as it was given. *)
Theorem invalid_input_exits_with_three
    (lib : Collaborators) (a : args) (w : world) :
  in_range (arg_quality a) = true →
  (path_exists (fs w) (input_folder a) = false →
   (∀ msg, stat_error (input_folder a) = Some msg →
      main lib a w =
        (Ok 3, {| fs := fs w;
                  trace := trace w ++ [EvPrint ("Error: " +:+ msg)] |})) ∧
   (stat_error (input_folder a) = None →
      main lib a w =
        (Ok 3, {| fs := fs w;
                  trace := trace w ++
                    [EvPrint ("Error: Input folder does not exist: "
                              +:+ given (input_folder a))] |}))) ∧
  (path_exists (fs w) (input_folder a) = true →
   is_dir (fs w) (input_folder a) = false →
   main lib a w =
     (Ok 3, {| fs := fs w;
               trace := trace w ++
                 [EvPrint ("Error: Input path is not a directory: "
                           +:+ given (input_folder a))] |})).
Proof.
  intros Hq. split; [intros Hex; split|].
  - intros msg Hmsg.
    rewrite (main_after_convert_folder lib a w (Raise (OSError msg)) w Hq);
      [reflexivity|].
    unfold convert_folder. rewrite convert_folder_with_unfold.
    unfold input_missing. by rewrite Hex, Hmsg.
  - intros Hnone.
    rewrite (main_after_convert_folder lib a w
               (Raise (ValueError ("Input folder does not exist: "
                                   +:+ given (input_folder a)))) w Hq);
      [reflexivity|].
    unfold convert_folder. rewrite convert_folder_with_unfold.
    unfold input_missing. by rewrite Hex, Hnone.
  - intros Hex Hd.
    rewrite (main_after_convert_folder lib a w
               (Raise (ValueError ("Input path is not a directory: "
                                   +:+ given (input_folder a)))) w Hq);
      [reflexivity|].
    unfold convert_folder. rewrite convert_folder_with_unfold.
    by rewrite Hex, Hd.
Qed.

Lemma invalid_input_exits_with_three_witness :
  let run (f : folder_arg) :=
    main Sample.sample_lib
      {| input_folder := f; output := None;
         arg_quality := 95; arg_verbose := false |} Sample.world0 in
  in_range 95 = true ∧
  (path_exists Sample.photos MoreSamples.long_arg = false ∧
   run MoreSamples.long_arg =
     (Ok 3, {| fs := Sample.photos;
               trace := [EvPrint ("Error: [Errno 36] File name too long: '"
                                  +:+ MoreSamples.long_name +:+ "'")] |})) ∧
  (path_exists Sample.photos MoreSamples.nowhere_arg = false ∧
   run MoreSamples.nowhere_arg =
     (Ok 3, {| fs := Sample.photos;
               trace := [EvPrint
                 "Error: Input folder does not exist: ./nowhere/"] |})) ∧
  (path_exists Sample.photos MoreSamples.notes_arg = true ∧
   is_dir Sample.photos MoreSamples.notes_arg = false ∧
   run MoreSamples.notes_arg =
     (Ok 3, {| fs := Sample.photos;
               trace := [EvPrint
                 "Error: Input path is not a directory: photos/notes.txt"]
            |})).
Proof.
  intros run.
  assert (Hq : in_range 95 = true) by reflexivity.
  split; [exact Hq|]. split; [|split].
  - assert (E : path_exists Sample.photos MoreSamples.long_arg = false)
      by (vm_compute; reflexivity).
    split; [exact E|].
    exact (proj1 (proj1 (invalid_input_exits_with_three Sample.sample_lib
                           {| input_folder := MoreSamples.long_arg;
                              output := None; arg_quality := 95;
                              arg_verbose := false |} Sample.world0 Hq) E)
             _ eq_refl).
  - assert (E : path_exists Sample.photos MoreSamples.nowhere_arg = false)
      by reflexivity.
    split; [exact E|].
    exact (proj2 (proj1 (invalid_input_exits_with_three Sample.sample_lib
                           {| input_folder := MoreSamples.nowhere_arg;
                              output := None; arg_quality := 95;
                              arg_verbose := false |} Sample.world0 Hq) E)
             eq_refl).
  - assert (E : path_exists Sample.photos MoreSamples.notes_arg = true)
      by reflexivity.
    assert (D : is_dir Sample.photos MoreSamples.notes_arg = false)
      by reflexivity.
    split; [exact E|]. split; [exact D|].
    exact (proj2 (invalid_input_exits_with_three Sample.sample_lib
                    {| input_folder := MoreSamples.notes_arg;
                       output := None; arg_quality := 95;
                       arg_verbose := false |} Sample.world0 Hq) E D).
Defined.

(** ** The verbose flag *)

Section Verbose.

Variable lib : Collaborators.

(** The world a call that saved its output ends in. *)
Lemma saved_run self source_path output_folder img w w0 w1 w2 :
  let output_path := output_path_of source_path output_folder in
  make_output_folder output_folder w = (Ok tt, w0) →
  path_exists (fs w0) output_path = false →
  open_rgb lib source_path w0 = (Ok img, w1) →
  Image_save lib img output_path
    (save_kwargs lib self (preserve_metadata img output_path)) w1
    = (Ok tt, w2) →
  convert_single_file lib self source_path output_folder w =
  (Ok true, (verify_if_verbose lib self source_path output_path w2).2).
Proof.
  intros output_path H Hex Ho Hs.
  destruct (verify_if_verbose_returns lib self source_path output_path w2)
    as [w3 Hv].
  rewrite Hv. unfold convert_single_file. apply try_except_Ok.
  rewrite (body_after_folder _ _ _ _ _ _ H Hex), (bind_Ok _ _ _ _ _ Ho).
  fold output_path.
  rewrite (bind_Ok _ _ _ _ _ Hs). by rewrite (bind_Ok _ _ _ _ _ Hv).
Qed.

Lemma verify_if_verbose_events self p q :
  steps (emitting open_event) (verify_if_verbose lib self p q).
Proof. unfold verify_if_verbose. steps_walk ltac:(apply verify_events). Qed.

End Verbose.

(** X19.  The verbose flag changes nothing but the log: with the same
    quality, a verbose call of [convert_single_file] returns what the
    non-verbose call returns and leaves the same tree; all it adds, after
    what the non-verbose call does, is opening images for the
    verification. *)
Theorem verbose_only_adds_verification
    (lib : Collaborators) (q : Z)
    (source_path : path) (output_folder : option path) (w : world) :
  let loud :=
    convert_single_file lib {| quality := q; verbose := true |}
      source_path output_folder w in
  let calm :=
    convert_single_file lib {| quality := q; verbose := false |}
      source_path output_folder w in
  loud.1 = calm.1 ∧
  fs loud.2 = fs calm.2 ∧
  ∃ evs, trace loud.2 = trace calm.2 ++ evs ∧ Forall open_event evs.
Proof.
  cbv zeta.
  set (on := {| quality := q; verbose := true |}).
  set (off := {| quality := q; verbose := false |}).
  set (outp := output_path_of source_path output_folder).
  assert (Hnil : ∀ r w',
    convert_single_file lib on source_path output_folder w = (r, w') →
    convert_single_file lib off source_path output_folder w = (r, w') →
    (convert_single_file lib on source_path output_folder w).1 =
      (convert_single_file lib off source_path output_folder w).1 ∧
    fs (convert_single_file lib on source_path output_folder w).2 =
      fs (convert_single_file lib off source_path output_folder w).2 ∧
    ∃ evs,
      trace (convert_single_file lib on source_path output_folder w).2 =
        trace (convert_single_file lib off source_path output_folder w).2
        ++ evs ∧ Forall open_event evs).
  { intros r w' -> ->. repeat split. exists []. by rewrite app_nil_r. }
  destruct (make_output_folder output_folder w) as [[[]|e] w0] eqn:Hf.
  - destruct (path_exists (fs w0) outp) eqn:Hex.
    { apply (Hnil (Ok true) w0); by apply skip_after_folder. }
    destruct (open_rgb lib source_path w0) as [[img|e] w1] eqn:Ho.
    + destruct (Image_save lib img outp
                  (save_kwargs lib on (preserve_metadata img outp)) w1)
        as [[[]|e] w2] eqn:Hsave.
      * rewrite (saved_run lib on _ _ _ _ _ _ _ Hf Hex Ho Hsave).
        rewrite (saved_run lib off _ _ _ _ _ _ _ Hf Hex Ho Hsave).
        fold outp. cbn [fst snd].
        split; [done|].
        pose proof (verify_if_verbose_same_fs lib on source_path outp w2) as H1.
        pose proof (verify_if_verbose_events lib on source_path outp w2) as H2.
        split; [exact H1|exact H2].
      * apply (Hnil (Ok false) w2);
          by apply save_error_gives_false with (e := e) (img := img)
                                                (w0 := w0) (w1 := w1).
    + apply (Hnil (Ok false) w1);
        by apply open_error_gives_false with (e := e) (w0 := w0).
  - apply (Hnil (Ok false) w0); by apply folder_error_gives_false with (e := e).
Qed.
